(** * taskService: the localStorage-backed task store

    A shallow embedding of [src/services/taskService.ts] (with the types of
    [src/types/task.ts]) and the properties the specification states about it.

    TypeScript types are erased at run time, so the service is modelled on
    JavaScript values: what [JSON.parse] can return and what the object
    spread of [update] really merges.  The typed records of [task.ts] are
    embedded into those values.  The platform the service calls into
    ([JSON.parse], [JSON.stringify], [localStorage.setItem], the clock and
    [Math.random]) is a parameter of the development; a reference platform
    with a JSON codec instantiates it for the examples.

    Outside the model: the simulated latency of the operations (each call
    runs to its end before the next starts), the console, and values that
    JSON does not carry ([undefined], functions). *)

From Stdlib Require Import ZArith Lia Ascii String DecimalString.
From stdpp Require Import base option list strings.

Local Open Scope string_scope.
Local Open Scope list_scope.
Local Open Scope Z_scope.

(** ** JavaScript values *)

(** The values [JSON.parse] produces.  Numbers are kept as integers: the
    service never computes with a number read from storage.  An object is the
    sequence of its own properties in insertion order. *)
#[local] Set Warnings "-register-all".
Inductive value : Type :=
| VNull
| VBool (b : bool)
| VNum (n : Z)
| VStr (s : string)
| VArr (items : list value)
| VObj (props : list (string * value)).

(** What a call can throw: [new Error('Task not found')], or the engine's
    [TypeError] (a property read on [null], a method that the receiver does
    not have, a spread of something that is not iterable). *)
Inductive exn : Type :=
| TaskNotFound
| TypeError.

Inductive completion (A : Type) : Type :=
| Normal (a : A)
| Throw (e : exn).
Arguments Normal {A} a.
Arguments Throw {A} e.

Definition cbind {A B : Type} (c : completion A) (k : A -> completion B)
  : completion B :=
  match c with
  | Normal a => k a
  | Throw e => Throw e
  end.

Notation "'let*' x ':=' c 'in' k" := (cbind c (fun x => k))
  (at level 10, x name, c at level 100, k at level 200).

(** [o.k] on the own properties of an object; [None] is [undefined]. *)
Fixpoint own_prop (k : string) (props : list (string * value)) : option value :=
  match props with
  | [] => None
  | (k', v) :: rest => if String.eqb k k' then Some v else own_prop k rest
  end.

(** [o[k] = v] on the own properties: an existing key keeps its place. *)
Fixpoint set_prop (k : string) (v : value) (props : list (string * value))
  : list (string * value) :=
  match props with
  | [] => [(k, v)]
  | (k', v') :: rest =>
      if String.eqb k k' then (k, v) :: rest else (k', v') :: set_prop k v rest
  end.

(** [{...target, ...source}]: the properties of [source] are set on [target]
    from left to right. *)
Definition spread_into (target source : list (string * value))
  : list (string * value) :=
  fold_left (fun acc kv => set_prop kv.1 kv.2 acc) source target.

(** Whether [t] is an object whose own [id] is the string [id].  On a
    boolean, a number, a string or an array the property [id] is
    [undefined]. *)
Definition has_id (id : string) (t : value) : bool :=
  match t with
  | VObj props =>
      match own_prop "id" props with
      | Some (VStr s) => String.eqb s id
      | _ => false
      end
  | _ => false
  end.

(** The callback condition [t.id === id], where [id] is a string.  Reading a
    property of [null] throws. *)
Definition id_is (id : string) (t : value) : completion bool :=
  match t with
  | VNull => Throw TypeError
  | _ => Normal (has_id id t)
  end.

(** The callback condition [t.id !== id]. *)
Definition id_is_not (id : string) (t : value) : completion bool :=
  let* b := id_is id t in Normal (negb b).

(** [Array.prototype.find], [findIndex] and [filter] with a callback that may
    throw.  [None] is [undefined] for [find] and [-1] for [findIndex]. *)
Fixpoint array_find (f : value -> completion bool) (l : list value)
  : completion (option value) :=
  match l with
  | [] => Normal None
  | t :: rest =>
      let* b := f t in
      if b : bool then Normal (Some t) else array_find f rest
  end.

Fixpoint array_findIndex (f : value -> completion bool) (l : list value)
  : completion (option nat) :=
  match l with
  | [] => Normal None
  | t :: rest =>
      let* b := f t in
      if b : bool then Normal (Some 0%nat)
      else let* i := array_findIndex f rest in Normal (S <$> i)
  end.

Fixpoint array_filter (f : value -> completion bool) (l : list value)
  : completion (list value) :=
  match l with
  | [] => Normal []
  | t :: rest =>
      let* b := f t in
      let* kept := array_filter f rest in
      Normal (if b : bool then t :: kept else kept)
  end.

(** A method of [Array.prototype] called on a value: only arrays have it. *)
Definition as_array (v : value) : completion (list value) :=
  match v with
  | VArr l => Normal l
  | _ => Throw TypeError
  end.

(** [[...v]]: arrays and strings are iterable (a string yields its
    characters), nothing else that JSON carries is. *)
Definition iterate (v : value) : completion (list value) :=
  match v with
  | VArr l => Normal l
  | VStr s => Normal ((fun c => VStr (String c EmptyString)) <$> String.list_ascii_of_string s)
  | _ => Throw TypeError
  end.

(** ** The records of [types/task.ts] and their run-time representation *)

Inductive TaskStatus : Type := pending | completed.
Inductive TaskPriority : Type := low | medium | high.

Record Task : Type := mkTask {
  task_id : string;
  task_title : string;
  task_description : string;
  task_dueDate : string;
  task_status : TaskStatus;
  task_priority : TaskPriority;
  task_createdAt : string;
  task_updatedAt : string;
}.

Record CreateTaskRequest : Type := mkCreate {
  create_title : string;
  create_description : string;
  create_dueDate : string;
  create_priority : TaskPriority;
}.

(** Every field of an [UpdateTaskRequest] is optional. *)
Record UpdateTaskRequest : Type := mkUpdate {
  update_title : option string;
  update_description : option string;
  update_dueDate : option string;
  update_status : option TaskStatus;
  update_priority : option TaskPriority;
}.

Definition status_string (s : TaskStatus) : string :=
  match s with pending => "pending" | completed => "completed" end.

Definition priority_string (p : TaskPriority) : string :=
  match p with low => "low" | medium => "medium" | high => "high" end.

(** A task as the object literal of [create] lays it out. *)
Definition task_props (t : Task) : list (string * value) :=
  [ ("id", VStr (task_id t));
    ("title", VStr (task_title t));
    ("description", VStr (task_description t));
    ("dueDate", VStr (task_dueDate t));
    ("priority", VStr (priority_string (task_priority t)));
    ("status", VStr (status_string (task_status t)));
    ("createdAt", VStr (task_createdAt t));
    ("updatedAt", VStr (task_updatedAt t)) ].

Definition task_value (t : Task) : value := VObj (task_props t).

Definition tasks_value (ts : list Task) : value := VArr (task_value <$> ts).

(** The own properties of a request object that satisfies
    [UpdateTaskRequest]: the fields that are present. *)
Definition opt_prop {A : Type} (k : string) (enc : A -> string) (o : option A)
  : list (string * value) :=
  match o with
  | Some a => [(k, VStr (enc a))]
  | None => []
  end.

Definition update_props (u : UpdateTaskRequest) : list (string * value) :=
  opt_prop "title" (fun s => s) (update_title u) ++
  opt_prop "description" (fun s => s) (update_description u) ++
  opt_prop "dueDate" (fun s => s) (update_dueDate u) ++
  opt_prop "status" status_string (update_status u) ++
  opt_prop "priority" priority_string (update_priority u).

(** The keys an [UpdateTaskRequest] can have. *)
Definition patch_keys : list string :=
  ["title"; "description"; "dueDate"; "status"; "priority"].

(** [data] is a patch object of type [UpdateTaskRequest] with the fields
    of [u], its properties in any order. *)
Definition patch_of (u : UpdateTaskRequest) (data : list (string * value)) : Prop :=
  NoDup data.*1 /\ forall k, own_prop k data = own_prop k (update_props u).

(** The shallow merge as the specification words it: the record a typed
    patch turns a task into, field by field, to compare with the spread of
    [update]. *)
Definition patched (t : Task) (u : UpdateTaskRequest) (now : string) : Task :=
  {| task_id := task_id t;
     task_title := default (task_title t) (update_title u);
     task_description := default (task_description t) (update_description u);
     task_dueDate := default (task_dueDate t) (update_dueDate u);
     task_status := default (task_status t) (update_status u);
     task_priority := default (task_priority t) (update_priority u);
     task_createdAt := task_createdAt t;
     task_updatedAt := now |}.

(** ** Identifiers *)

(** What one call reads from its surroundings: [Date.now()], the text of
    [Math.random().toString(36)] and [dayjs().toISOString()]. *)
Record Env : Type := mkEnv {
  Date_now : Z;
  Math_random : string;
  dayjs_now : string;
}.

Definition digit36 (d : Z) : ascii :=
  if d <? 10 then ascii_of_N (Z.to_N (48 + d)) else ascii_of_N (Z.to_N (87 + d)).

(** The digits of a non-negative integer in base 36, most significant
    first, in front of [acc]. *)
Fixpoint toString36_aux (fuel : nat) (n : Z) (acc : string) : string :=
  match fuel with
  | O => acc
  | S fuel' =>
      let acc' := String (digit36 (n mod 36)) acc in
      if n <? 36 then acc' else toString36_aux fuel' (n / 36) acc'
  end.

(** [n.toString(36)] for an integer [n]. *)
Definition toString36 (n : Z) : string :=
  if n <? 0
  then String "-" (toString36_aux (S (Z.to_nat (Z.log2 (- n)))) (- n) EmptyString)
  else toString36_aux (S (Z.to_nat (Z.log2 n))) n EmptyString.

(** [s.substring(2)]. *)
Definition substring2 (s : string) : string :=
  match s with
  | String _ (String _ rest) => rest
  | _ => EmptyString
  end.

Definition generateId (e : Env) : string :=
  toString36 (Date_now e) +:+ substring2 (Math_random e).

(** The value of a digit of base 36, and of a text of such digits. *)
Definition value36 (c : ascii) : Z :=
  let n := Z.of_N (N_of_ascii c) in
  if n <? 58 then n - 48 else n - 87.

Fixpoint fromString36 (acc : Z) (s : string) : Z :=
  match s with
  | EmptyString => acc
  | String c rest => fromString36 (36 * acc + value36 c) rest
  end.

(** The task the specification asks of [create], from a request and the
    readings of the clock and of [Math.random], to compare with the object
    literal of [create]. *)
Definition created (data : CreateTaskRequest) (e : Env) : Task :=
  {| task_id := generateId e;
     task_title := create_title data;
     task_description := create_description data;
     task_dueDate := create_dueDate data;
     task_priority := create_priority data;
     task_status := pending;
     task_createdAt := dayjs_now e;
     task_updatedAt := dayjs_now e |}.

(** ** The service *)

(** [!v] is false exactly on the truthy values. *)
Definition truthy (v : value) : bool :=
  match v with
  | VNull => false
  | VBool b => b
  | VNum n => negb (n =? 0)
  | VStr s => negb (String.eqb s EmptyString)
  | VArr _ | VObj _ => true
  end.

Definition index_key (i : nat) : string :=
  NilZero.string_of_uint (Nat.to_uint i).

(** The own enumerable properties that [{...v}] copies; [None] is
    [undefined], which like [null] and the other primitives has none. *)
Definition spread_source (v : option value) : list (string * value) :=
  match v with
  | Some (VObj props) => props
  | Some (VArr l) => imap (fun i x => (index_key i, x)) l
  | Some (VStr s) =>
      imap (fun i c => (index_key i, VStr (String c EmptyString)))
           (String.list_ascii_of_string s)
  | _ => []
  end.

(** A call of one of the operations that write, with a request of the
    type that [taskService] declares for it. *)
Inductive operation : Type :=
| Create (data : CreateTaskRequest) (e : Env)
| Update (id : string) (u : UpdateTaskRequest) (e : Env)
| Delete (id : string).

(** The ids that the calls of [create] among [calls] generate, in order. *)
Definition generated (calls : list operation) : list string :=
  omap (fun c => match c with
                 | Create _ e => Some (generateId e)
                 | _ => None
                 end) calls.

(** The slot of [localStorage] under [STORAGE_KEY]: [None] when
    [getItem] returns [null]. *)
Definition Storage : Type := option string.

Section Service.

(** [JSON.parse]; [None] when it throws a [SyntaxError]. *)
Variable JSON_parse : string -> option value.
(** [JSON.stringify] on the values above. *)
Variable JSON_stringify : value -> string.
(** Whether [localStorage.setItem] stores the text it is given; it throws
    (the quota is exceeded) when it does not. *)
Variable setItem_accepts : string -> bool.

(** [try { stored ? JSON.parse(stored) : [] } catch { return [] }] *)
Definition getAllTasks (st : Storage) : value :=
  match st with
  | Some stored =>
      if String.eqb stored EmptyString then VArr []
      else match JSON_parse stored with
           | Some v => v
           | None => VArr []
           end
  | None => VArr []
  end.

(** [try { setItem(STORAGE_KEY, JSON.stringify(tasks)) } catch { warn }] *)
Definition saveTasks (tasks : value) (st : Storage) : Storage :=
  let blob := JSON_stringify tasks in
  if setItem_accepts blob then Some blob else st.

(** An operation of [taskService] started on a storage returns or throws,
    and leaves a storage.  The simulated latency has no effect on either,
    and the [{ data: v }] around a result is left out: the model returns
    [v]. *)
Definition call (A : Type) : Type := Storage -> completion A * Storage.

Definition getAll : call value :=
  fun st => (Normal (getAllTasks st), st).

Definition getById (id : string) : call value :=
  fun st =>
    let tasks := getAllTasks st in
    (let* l := as_array tasks in
     let* task := array_find (id_is id) l in
     match task with
     | Some t => if truthy t then Normal t else Throw TaskNotFound
     | None => Throw TaskNotFound
     end, st).

Definition create (data : CreateTaskRequest) (e : Env) : call value :=
  fun st =>
    let tasks := getAllTasks st in
    let now := dayjs_now e in
    let newTask :=
      task_value {| task_id := generateId e;
                    task_title := create_title data;
                    task_description := create_description data;
                    task_dueDate := create_dueDate data;
                    task_priority := create_priority data;
                    task_status := pending;
                    task_createdAt := now;
                    task_updatedAt := now |} in
    match iterate tasks with
    | Normal l => (Normal newTask, saveTasks (VArr (l ++ [newTask])) st)
    | Throw err => (Throw err, st)
    end.

(** [data] is the own properties of the patch object as it arrives.  The
    found element is an object (only an object has an [id]); the literal
    [{...tasks[taskIndex], ...data, updatedAt}] starts from its properties,
    sets those of [data] over them, and [updatedAt] last. *)
Definition update (id : string) (data : list (string * value)) (e : Env)
  : call value :=
  fun st =>
    let tasks := getAllTasks st in
    match (let* l := as_array tasks in
           let* i := array_findIndex (id_is id) l in Normal (l, i)) with
    | Throw err => (Throw err, st)
    | Normal (_, None) => (Throw TaskNotFound, st)
    | Normal (l, Some taskIndex) =>
        let updatedTask :=
          VObj (set_prop "updatedAt" (VStr (dayjs_now e))
                  (spread_into (spread_source (l !! taskIndex)) data)) in
        (Normal updatedTask, saveTasks (VArr (<[taskIndex := updatedTask]> l)) st)
    end.

Definition delete (id : string) : call unit :=
  fun st =>
    let tasks := getAllTasks st in
    match (let* l := as_array tasks in array_filter (id_is_not id) l) with
    | Normal filteredTasks => (Normal tt, saveTasks (VArr filteredTasks) st)
    | Throw err => (Throw err, st)
    end.

(** Several calls of [create], one after the other: the outcomes in order,
    and the storage at the end. *)
Fixpoint create_all (calls : list (CreateTaskRequest * Env)) (st : Storage)
  : list (completion value) * Storage :=
  match calls with
  | [] => ([], st)
  | (data, e) :: rest =>
      let '(outcome, st') := create data e st in
      let '(outcomes, st'') := create_all rest st' in
      (outcome :: outcomes, st'')
  end.

(** Calls that write, one after the other, and the storage they leave;
    a call that throws leaves the storage as it found it. *)
Fixpoint run (calls : list operation) (st : Storage) : Storage :=
  match calls with
  | [] => st
  | Create data e :: rest => run rest (create data e st).2
  | Update id u e :: rest => run rest (update id (update_props u) e st).2
  | Delete id :: rest => run rest (delete id st).2
  end.

(** The platform law the round trip rests on: [JSON.parse] gives back the
    value whose text [JSON.stringify] wrote (and that text is not empty,
    so that [getAllTasks] parses it). *)
Definition reads_back (v : value) : Prop :=
  JSON_stringify v <> EmptyString /\ JSON_parse (JSON_stringify v) = Some v.

End Service.

(** ** A reference platform

    A JSON codec and a quota, to run the service on concrete storages.  The
    codec covers the JSON that the values above need: literals, integers,
    strings with the two-character escapes, arrays and objects. *)
Module Reference.

Definition dquote : ascii := ascii_of_nat 34.
Definition backslash : ascii := ascii_of_nat 92.

Fixpoint escape (s : string) : string :=
  match s with
  | EmptyString => EmptyString
  | String c rest =>
      if Ascii.eqb c dquote || Ascii.eqb c backslash
      then String backslash (String c (escape rest))
      else String c (escape rest)
  end.

Definition quote (s : string) : string :=
  String dquote (escape s +:+ String dquote EmptyString).

(** The texts of [l] with [sep] between them. *)
Fixpoint join (sep : string) (l : list string) : string :=
  match l with
  | [] => EmptyString
  | x :: rest =>
      match rest with
      | [] => x
      | _ :: _ => x +:+ sep +:+ join sep rest
      end
  end.

Fixpoint stringify (v : value) : string :=
  match v with
  | VNull => "null"
  | VBool true => "true"
  | VBool false => "false"
  | VNum n => NilZero.string_of_int (Z.to_int n)
  | VStr s => quote s
  | VArr l => "[" +:+ join "," (List.map stringify l) +:+ "]"
  | VObj props =>
      "{" +:+ join "," (List.map (fun kx => let '(k, x) := kx in
                                            quote k +:+ ":" +:+ stringify x)
                                 props) +:+ "}"
  end.

Definition is_ws (c : ascii) : bool :=
  Ascii.eqb c " " || Ascii.eqb c (ascii_of_nat 10)
  || Ascii.eqb c (ascii_of_nat 13) || Ascii.eqb c (ascii_of_nat 9).

Fixpoint skip_ws (cs : list ascii) : list ascii :=
  match cs with
  | c :: rest => if is_ws c then skip_ws rest else cs
  | [] => []
  end.

Definition unescape (c : ascii) : option ascii :=
  if Ascii.eqb c dquote || Ascii.eqb c backslash || Ascii.eqb c "/" then Some c
  else if Ascii.eqb c "n" then Some (ascii_of_nat 10)
  else if Ascii.eqb c "r" then Some (ascii_of_nat 13)
  else if Ascii.eqb c "t" then Some (ascii_of_nat 9)
  else if Ascii.eqb c "b" then Some (ascii_of_nat 8)
  else if Ascii.eqb c "f" then Some (ascii_of_nat 12)
  else None.

(** The characters of a string literal, after its opening quote. *)
Fixpoint parse_chars (cs : list ascii) : option (string * list ascii) :=
  match cs with
  | [] => None
  | c :: rest =>
      if Ascii.eqb c dquote then Some (EmptyString, rest)
      else if Ascii.eqb c backslash then
        match rest with
        | e :: rest' =>
            c' ← unescape e;
            '(s, rest'') ← parse_chars rest';
            Some (String c' s, rest'')
        | [] => None
        end
      else '(s, rest') ← parse_chars rest; Some (String c s, rest')
  end.

Definition digit_of (c : ascii) : option Z :=
  let n := Z.of_N (N_of_ascii c) in
  if (48 <=? n) && (n <=? 57) then Some (n - 48) else None.

Fixpoint parse_digits (acc : Z) (cs : list ascii) : Z * list ascii :=
  match cs with
  | c :: rest =>
      match digit_of c with
      | Some d => parse_digits (10 * acc + d) rest
      | None => (acc, cs)
      end
  | [] => (acc, [])
  end.

Definition parse_number (cs : list ascii) : option (value * list ascii) :=
  match cs with
  | c :: rest =>
      if Ascii.eqb c "-" then
        match rest with
        | d :: _ =>
            _ ← digit_of d;
            let '(n, rest') := parse_digits 0 rest in Some (VNum (- n), rest')
        | [] => None
        end
      else
        _ ← digit_of c;
        let '(n, rest') := parse_digits 0 cs in Some (VNum n, rest')
  | [] => None
  end.

Fixpoint expect (word : list ascii) (cs : list ascii) : option (list ascii) :=
  match word, cs with
  | [], _ => Some cs
  | w :: word', c :: rest => if Ascii.eqb w c then expect word' rest else None
  | _ :: _, [] => None
  end.

Definition literal (word : string) (v : value) (cs : list ascii)
  : option (value * list ascii) :=
  rest ← expect (String.list_ascii_of_string word) cs; Some (v, rest).

Fixpoint parse_value (fuel : nat) (cs : list ascii)
  : option (value * list ascii) :=
  match fuel with
  | O => None
  | S fuel' =>
      match skip_ws cs with
      | [] => None
      | c :: rest =>
          if Ascii.eqb c "n" then literal "null" VNull (c :: rest)
          else if Ascii.eqb c "t" then literal "true" (VBool true) (c :: rest)
          else if Ascii.eqb c "f" then literal "false" (VBool false) (c :: rest)
          else if Ascii.eqb c dquote then
            '(s, rest') ← parse_chars rest; Some (VStr s, rest')
          else if Ascii.eqb c "[" then
            match skip_ws rest with
            | "]"%char :: rest' => Some (VArr [], rest')
            | _ => '(l, rest') ← parse_elements fuel' rest; Some (VArr l, rest')
            end
          else if Ascii.eqb c "{" then
            match skip_ws rest with
            | "}"%char :: rest' => Some (VObj [], rest')
            | _ =>
                '(ps, rest') ← parse_members fuel' rest;
                Some (VObj (spread_into [] ps), rest')
            end
          else parse_number (c :: rest)
      end
  end
with parse_elements (fuel : nat) (cs : list ascii)
  : option (list value * list ascii) :=
  match fuel with
  | O => None
  | S fuel' =>
      '(v, rest) ← parse_value fuel' cs;
      match skip_ws rest with
      | ","%char :: rest' =>
          '(l, rest'') ← parse_elements fuel' rest'; Some (v :: l, rest'')
      | "]"%char :: rest' => Some ([v], rest')
      | _ => None
      end
  end
with parse_members (fuel : nat) (cs : list ascii)
  : option (list (string * value) * list ascii) :=
  match fuel with
  | O => None
  | S fuel' =>
      match skip_ws cs with
      | c :: rest =>
          if Ascii.eqb c dquote then
            '(k, rest1) ← parse_chars rest;
            match skip_ws rest1 with
            | ":"%char :: rest2 =>
                '(v, rest3) ← parse_value fuel' rest2;
                match skip_ws rest3 with
                | ","%char :: rest4 =>
                    '(ps, rest5) ← parse_members fuel' rest4;
                    Some ((k, v) :: ps, rest5)
                | "}"%char :: rest4 => Some ([(k, v)], rest4)
                | _ => None
                end
            | _ => None
            end
          else None
      | [] => None
      end
  end.

Definition parse (s : string) : option value :=
  let cs := String.list_ascii_of_string s in
  '(v, rest) ← parse_value (S (length cs)) cs;
  match skip_ws rest with
  | [] => Some v
  | _ :: _ => None
  end.

(** A storage that takes texts of up to [quota] characters. *)
Definition accepts (quota : N) (blob : string) : bool :=
  (N.of_nat (String.length blob) <=? quota)%N.

End Reference.

(** ** Sample data *)
Module Sample.

Definition milk : Task :=
  {| task_id := "abc";
     task_title := "Buy milk";
     task_description := "2%, one gallon";
     task_dueDate := "2024-06-01T00:00:00.000Z";
     task_status := pending;
     task_priority := medium;
     task_createdAt := "2024-05-01T10:00:00.000Z";
     task_updatedAt := "2024-05-01T10:00:00.000Z" |}.

Definition request : CreateTaskRequest :=
  {| create_title := "Buy milk";
     create_description := "2%, one gallon";
     create_dueDate := "2024-06-01T00:00:00.000Z";
     create_priority := medium |}.

(** 2024-06-01T00:00:00.000Z on the clock. *)
Definition env : Env :=
  {| Date_now := 1717200000000;
     Math_random := "0.4fzyo82mvyr";
     dayjs_now := "2024-06-01T00:00:00.000Z" |}.

(** A clock that was set back to before [milk] was last updated. *)
Definition env_back : Env :=
  {| Date_now := 1714467600000;
     Math_random := "0.9x3k1c7pq";
     dayjs_now := "2024-04-30T09:00:00.000Z" |}.

Definition high_priority : UpdateTaskRequest :=
  {| update_title := None;
     update_description := None;
     update_dueDate := None;
     update_status := None;
     update_priority := Some high |}.

(** A patch that renames the task and raises its priority, and a patch
    object for it with the properties in another order. *)
Definition oat_milk : UpdateTaskRequest :=
  {| update_title := Some "Buy oat milk";
     update_description := None;
     update_dueDate := None;
     update_status := None;
     update_priority := Some high |}.

Definition oat_milk_object : list (string * value) :=
  [("priority", VStr "high"); ("title", VStr "Buy oat milk")].

(** A patch object that carries the two fields [UpdateTaskRequest] does
    not have. *)
Definition forged : list (string * value) :=
  [("id", VStr "xyz"); ("createdAt", VStr "1999-12-31T00:00:00.000Z")].

(** [milk] after the patch [forged] went through [update] at [env]. *)
Definition milk_forged : Task :=
  {| task_id := "xyz";
     task_title := "Buy milk";
     task_description := "2%, one gallon";
     task_dueDate := "2024-06-01T00:00:00.000Z";
     task_status := pending;
     task_priority := medium;
     task_createdAt := "1999-12-31T00:00:00.000Z";
     task_updatedAt := "2024-06-01T00:00:00.000Z" |}.

Definition roomy : string -> bool := Reference.accepts 5000000.
Definition full : string -> bool := Reference.accepts 0.

(** The slot after the tasks [ts] were saved. *)
Definition stored (ts : list Task) : Storage :=
  Some (Reference.stringify (tasks_value ts)).

End Sample.

(** ** The hooks, the page and the table

    [useTaskOperations], [useTasks], the handlers and the statistics of
    [TaskManagementPage], the submit handlers of [TaskFormModal] and
    [TaskForm], and the sorter and the overdue mark of [TaskList].  React
    state is a record; a handler takes the storage and the state to an
    outcome, a storage and a state. *)

(** What antd's [message] has shown. *)
Inductive notice : Type :=
| message_success (text : string)
| message_error (text : string).

(** The notice for an outcome: [ok] when the call returned, [err] when it
    threw. *)
Definition shown {A : Type} (ok err : string) (r : completion A) : notice :=
  match r with
  | Normal _ => message_success ok
  | Throw _ => message_error err
  end.

(** [TaskFormData] has the fields of [CreateTaskRequest]. *)
Definition TaskFormData : Type := CreateTaskRequest.

(** The state of the page: [data], [loading] and [error] of [useTasks]
    ([error] keeps the message of an exception: the model keeps the
    exception), [loading] of [useTaskOperations], the notices shown, the
    two states of the page itself, and how often the form was reset. *)
Record Page : Type := mkPage {
  data : option value;
  loading : bool;
  error : option exn;
  operationLoading : bool;
  notices : list notice;
  isModalOpen : bool;
  selectedTask : option Task;
  form_resets : nat;
}.

Definition setData (v : option value) (p : Page) : Page :=
  mkPage v (loading p) (error p) (operationLoading p) (notices p)
         (isModalOpen p) (selectedTask p) (form_resets p).

Definition setLoading (b : bool) (p : Page) : Page :=
  mkPage (data p) b (error p) (operationLoading p) (notices p)
         (isModalOpen p) (selectedTask p) (form_resets p).

Definition setError (e : option exn) (p : Page) : Page :=
  mkPage (data p) (loading p) e (operationLoading p) (notices p)
         (isModalOpen p) (selectedTask p) (form_resets p).

Definition setOperationLoading (b : bool) (p : Page) : Page :=
  mkPage (data p) (loading p) (error p) b (notices p)
         (isModalOpen p) (selectedTask p) (form_resets p).

Definition show (n : notice) (p : Page) : Page :=
  mkPage (data p) (loading p) (error p) (operationLoading p) (notices p ++ [n])
         (isModalOpen p) (selectedTask p) (form_resets p).

Definition setIsModalOpen (b : bool) (p : Page) : Page :=
  mkPage (data p) (loading p) (error p) (operationLoading p) (notices p)
         b (selectedTask p) (form_resets p).

Definition setSelectedTask (t : option Task) (p : Page) : Page :=
  mkPage (data p) (loading p) (error p) (operationLoading p) (notices p)
         (isModalOpen p) t (form_resets p).

Definition resetFields (p : Page) : Page :=
  mkPage (data p) (loading p) (error p) (operationLoading p) (notices p)
         (isModalOpen p) (selectedTask p) (S (form_resets p)).

(** The own properties of the form values as [TaskForm] submits them. *)
Definition form_props (values : TaskFormData) : list (string * value) :=
  [ ("title", VStr (create_title values));
    ("description", VStr (create_description values));
    ("dueDate", VStr (create_dueDate values));
    ("priority", VStr (priority_string (create_priority values))) ].

(** The patch that the form values are, as an [UpdateTaskRequest]. *)
Definition form_patch (values : TaskFormData) : UpdateTaskRequest :=
  {| update_title := Some (create_title values);
     update_description := Some (create_description values);
     update_dueDate := Some (create_dueDate values);
     update_status := None;
     update_priority := Some (create_priority values) |}.

(** [formatTaskFormData] of the page. *)
Definition formatTaskFormData (task : Task) : TaskFormData :=
  {| create_title := task_title task;
     create_description := task_description task;
     create_dueDate := task_dueDate task;
     create_priority := task_priority task |}.

(** What the form holds when it is submitted: [picked_dueDate] is the text
    [dayjs(values.dueDate).toISOString()] of the chosen date, [None] when
    no date is chosen. *)
Record FormValues : Type := mkForm {
  picked_title : string;
  picked_description : string;
  picked_dueDate : option string;
  picked_priority : TaskPriority;
}.

(** [formattedValues] of [TaskForm]: without a date, the clock. *)
Definition formattedValues (values : FormValues) (e : Env) : TaskFormData :=
  {| create_title := picked_title values;
     create_description := picked_description values;
     create_dueDate := default (dayjs_now e) (picked_dueDate values);
     create_priority := picked_priority values |}.

(** The callback condition [task.status === s]. *)
Definition status_is (s : string) (t : value) : completion bool :=
  match t with
  | VNull => Throw TypeError
  | VObj props =>
      Normal match own_prop "status" props with
             | Some (VStr s') => String.eqb s' s
             | _ => false
             end
  | _ => Normal false
  end.

(** Whether [t] is an object whose own [status] is the string [s]. *)
Definition has_status (s : string) (t : value) : bool :=
  match t with
  | VObj props =>
      match own_prop "status" props with
      | Some (VStr s') => String.eqb s' s
      | _ => false
      end
  | _ => false
  end.

(** [t.dueDate]; [None] is [undefined].  Only read where [t.status] was. *)
Definition dueDate_of (t : value) : option value :=
  match t with
  | VObj props => own_prop "dueDate" props
  | _ => None
  end.

Record Statistics : Type := mkStatistics {
  totalTasks : nat;
  completedTasks : nat;
  pendingTasks : nat;
  overdueTasks : nat;
}.

(** [priorityOrder] of the priority column, and its sorter. *)
Definition priorityOrder (p : TaskPriority) : Z :=
  match p with low => 1 | medium => 2 | high => 3 end.

Definition priority_sorter (a b : Task) : Z :=
  priorityOrder (task_priority a) - priorityOrder (task_priority b).

(** The status that is not [s]. *)
Definition other_status (s : TaskStatus) : TaskStatus :=
  match s with pending => completed | completed => pending end.

(** A task with another status and another [updatedAt]. *)
Definition with_status (s : TaskStatus) (now : string) (t : Task) : Task :=
  {| task_id := task_id t;
     task_title := task_title t;
     task_description := task_description t;
     task_dueDate := task_dueDate t;
     task_status := s;
     task_priority := task_priority t;
     task_createdAt := task_createdAt t;
     task_updatedAt := now |}.

(** The patch that [toggleComplete] passes, as an [UpdateTaskRequest]. *)
Definition status_patch (s : TaskStatus) : UpdateTaskRequest :=
  {| update_title := None;
     update_description := None;
     update_dueDate := None;
     update_status := Some s;
     update_priority := None |}.

(** The values that the filters of the priority and of the status column
    offer, and [onFilter] of the two columns. *)
Definition priority_filters : list string := ["low"; "medium"; "high"].
Definition status_filters : list string := ["pending"; "completed"].

Definition priority_onFilter (v : string) (record : Task) : bool :=
  String.eqb (priority_string (task_priority record)) v.

Definition status_onFilter (v : string) (record : Task) : bool :=
  String.eqb (status_string (task_status record)) v.

Section Interface.

Variable JSON_parse : string -> option value.
Variable JSON_stringify : value -> string.
Variable setItem_accepts : string -> bool.

(** [new Date(v).getTime()] for what a task has as [dueDate] ([None] in:
    [undefined]); [None] out: an invalid date, whose time is [NaN]. *)
Variable Date_time : option value -> option Z.
(** [dayjs(v).valueOf()], [None] for an invalid date; and the last
    millisecond of the local day of an instant, [endOf('day')].  dayjs
    reads [undefined] as the clock, whose day does not end before the
    clock: for the one use below, that is [None] as well. *)
Variable dayjs_time : option value -> option Z.
Variable endOf_day : Z -> Z.

(** A handler returns or throws, and leaves a storage and a page. *)
Definition handler (A : Type) : Type :=
  Storage -> Page -> completion A * Storage * Page.

(** *** [useTaskOperations] *)

Definition createItem (data : CreateTaskRequest) (e : Env) : handler value :=
  fun st p =>
    let p := setOperationLoading true p in
    match create JSON_parse JSON_stringify setItem_accepts data e st with
    | (Normal result, st') =>
        (Normal result, st',
         setOperationLoading false
           (show (message_success "Task created successfully!") p))
    | (Throw err, st') =>
        (Throw err, st',
         setOperationLoading false (show (message_error "Failed to create task") p))
    end.

Definition updateItem (id : string) (data : list (string * value)) (e : Env)
  : handler value :=
  fun st p =>
    let p := setOperationLoading true p in
    match update JSON_parse JSON_stringify setItem_accepts id data e st with
    | (Normal result, st') =>
        (Normal result, st',
         setOperationLoading false
           (show (message_success "Task updated successfully!") p))
    | (Throw err, st') =>
        (Throw err, st',
         setOperationLoading false (show (message_error "Failed to update task") p))
    end.

Definition deleteItem (id : string) : handler unit :=
  fun st p =>
    let p := setOperationLoading true p in
    match delete JSON_parse JSON_stringify setItem_accepts id st with
    | (Normal _, st') =>
        (Normal tt, st',
         setOperationLoading false
           (show (message_success "Task deleted successfully!") p))
    | (Throw err, st') =>
        (Throw err, st',
         setOperationLoading false (show (message_error "Failed to delete task") p))
    end.

(** [currentStatus === 'pending' ? 'completed' : 'pending'] *)
Definition toggled (currentStatus : string) : string :=
  if String.eqb currentStatus "pending" then "completed" else "pending".

Definition toggleComplete (id : string) (currentStatus : string) (e : Env)
  : handler value :=
  updateItem id [("status", VStr (toggled currentStatus))] e.

(** *** [useTasks] *)

(** [enabled] is [options.enabled]; [None] is [undefined]. *)
Definition fetchData (enabled : option bool) : handler unit :=
  fun st p =>
    match enabled with
    | Some true =>
        let p := setError None (setLoading true p) in
        match getAll JSON_parse st with
        | (Normal response, st') =>
            (Normal tt, st', setLoading false (setData (Some response) p))
        | (Throw err, st') =>
            (Normal tt, st', setLoading false (setError (Some err) p))
        end
    | _ => (Normal tt, st, p)
    end.

(** The page calls [useTasks()]: [options] is [{ enabled: true }]. *)
Definition refetch : handler unit := fetchData (Some true).

(** *** [TaskManagementPage] *)

Definition handleCreate (p : Page) : Page :=
  setIsModalOpen true (setSelectedTask None p).

Definition handleEdit (task : Task) (p : Page) : Page :=
  setIsModalOpen true (setSelectedTask (Some task) p).

(** An [await] that throws ends the handler: [refetch] is not reached. *)
Definition handleSubmit (values : TaskFormData) (e : Env) : handler unit :=
  fun st p =>
    match match selectedTask p with
          | Some task => updateItem (task_id task) (form_props values) e st p
          | None => createItem values e st p
          end with
    | (Normal _, st', p') => refetch st' p'
    | (Throw err, st', p') => (Throw err, st', p')
    end.

Definition handleDelete (id : string) : handler unit :=
  fun st p =>
    match deleteItem id st p with
    | (Normal _, st', p') => refetch st' p'
    | (Throw err, st', p') => (Throw err, st', p')
    end.

Definition handleToggleComplete (id : string) (currentStatus : string) (e : Env)
  : handler unit :=
  fun st p =>
    match toggleComplete id currentStatus e st p with
    | (Normal _, st', p') => refetch st' p'
    | (Throw err, st', p') => (Throw err, st', p')
    end.

(** The callback of the overdue count:
    [task.status === 'pending' && new Date(task.dueDate) < new Date()]. *)
Definition overdue_at (now : Z) (task : value) : completion bool :=
  let* p := status_is "pending" task in
  Normal (p && match Date_time (dueDate_of task) with
               | Some t => t <? now
               | None => false
               end).

(** The statistics of the page, from [data] and the clock; [data || []]
    first. *)
Definition statistics (d : option value) (now : Z) : completion Statistics :=
  let tasks := match d with
               | Some v => if truthy v then v else VArr []
               | None => VArr []
               end in
  let* l := as_array tasks in
  let* completed := array_filter (status_is "completed") l in
  let* pending := array_filter (status_is "pending") l in
  let* overdue := array_filter (overdue_at now) l in
  Normal {| totalTasks := length l;
            completedTasks := length completed;
            pendingTasks := length pending;
            overdueTasks := length overdue |}.

(** *** [TaskFormModal] and [TaskForm] *)

(** [handleSubmit] of the modal: [await onSubmit(values); onCancel()],
    where the page passes its [handleSubmit] and a close of the modal. *)
Definition modal_handleSubmit (values : TaskFormData) (e : Env) : handler unit :=
  fun st p =>
    match handleSubmit values e st p with
    | (Normal _, st', p') => (Normal tt, st', setIsModalOpen false p')
    | (Throw err, st', p') => (Throw err, st', p')
    end.

(** [handleSubmit] of the form: the [catch] is empty.  [e_form] is the
    clock that the form reads, [e] what the service reads after it. *)
Definition form_handleSubmit (values : FormValues) (e_form e : Env)
  : handler unit :=
  fun st p =>
    match modal_handleSubmit (formattedValues values e_form) e st p with
    | (Normal _, st', p') => (Normal tt, st', resetFields p')
    | (Throw _, st', p') => (Normal tt, st', p')
    end.

(** *** [TaskList] *)

(** [isOverdue] of the due date column:
    [dayjs(date).isBefore(dayjs(), 'day') && record.status === 'pending'],
    where [isBefore] compares the end of the day of [date] with the
    clock. *)
Definition isOverdue (now : Z) (record : value) : completion bool :=
  match dayjs_time (dueDate_of record) with
  | Some t =>
      if endOf_day t <? now then status_is "pending" record else Normal false
  | None => Normal false
  end.

End Interface.

(** ** A reference clock

    Dates for the examples: the time of an ISO text of the form
    [YYYY-MM-DDTHH:MM:SS.sssZ] in milliseconds since 1970, and days that
    end at midnight UTC. *)
Module ReferenceClock.

Definition digit (c : ascii) : option Z :=
  let n := Z.of_N (N_of_ascii c) in
  if (48 <=? n) && (n <=? 57) then Some (n - 48) else None.

Fixpoint number (acc : Z) (cs : list ascii) : option Z :=
  match cs with
  | [] => Some acc
  | c :: rest => d ← digit c; number (10 * acc + d) rest
  end.

(** The days from 1970-01-01 to a date of the Gregorian calendar. *)
Definition days_from_civil (y m d : Z) : Z :=
  let y' := if m <=? 2 then y - 1 else y in
  let era := y' / 400 in
  let yoe := y' - era * 400 in
  let doy := (153 * (if m <=? 2 then m + 9 else m - 3) + 2) / 5 + d - 1 in
  let doe := yoe * 365 + yoe / 4 - yoe / 100 + doy in
  era * 146097 + doe - 719468.

Definition iso_time (s : string) : option Z :=
  match String.list_ascii_of_string s with
  | [y1; y2; y3; y4; "-"; m1; m2; "-"; d1; d2; "T"; h1; h2; ":"; n1; n2; ":";
     s1; s2; "."; f1; f2; f3; "Z"]%char =>
      y ← number 0 [y1; y2; y3; y4];
      m ← number 0 [m1; m2];
      d ← number 0 [d1; d2];
      h ← number 0 [h1; h2];
      n ← number 0 [n1; n2];
      sec ← number 0 [s1; s2];
      f ← number 0 [f1; f2; f3];
      if (1 <=? m) && (m <=? 12) && (1 <=? d) && (d <=? 31)
         && (h <? 24) && (n <? 60) && (sec <? 60)
      then Some ((((days_from_civil y m d * 24 + h) * 60 + n) * 60 + sec) * 1000 + f)
      else None
  | _ => None
  end.

(** [new Date(v).getTime()] and [dayjs(v).valueOf()] on such texts. *)
Definition time (v : option value) : option Z :=
  match v with
  | Some (VStr s) => iso_time s
  | _ => None
  end.

Definition endOf_day (t : Z) : Z := t / 86400000 * 86400000 + 86399999.

End ReferenceClock.

(** ** Sample data of the interface *)
Module SampleUi.

(** The page as it is mounted, before the first fetch. *)
Definition page : Page :=
  {| data := None;
     loading := false;
     error := None;
     operationLoading := false;
     notices := [];
     isModalOpen := false;
     selectedTask := None;
     form_resets := 0 |}.

(** A second task, completed, and due a day after [Sample.milk]. *)
Definition bread : Task :=
  {| task_id := "def";
     task_title := "Buy bread";
     task_description := "Sourdough, sliced";
     task_dueDate := "2024-06-02T00:00:00.000Z";
     task_status := completed;
     task_priority := high;
     task_createdAt := "2024-05-02T10:00:00.000Z";
     task_updatedAt := "2024-05-03T10:00:00.000Z" |}.

(** A task that is not stored. *)
Definition ghost : Task :=
  {| task_id := "gone";
     task_title := "Buy eggs";
     task_description := "A dozen, free range";
     task_dueDate := "2024-06-03T00:00:00.000Z";
     task_status := pending;
     task_priority := low;
     task_createdAt := "2024-05-02T10:00:00.000Z";
     task_updatedAt := "2024-05-02T10:00:00.000Z" |}.

(** 2024-06-03T12:00:00.000Z on the clock. *)
Definition env_later : Env :=
  {| Date_now := 1717416000000;
     Math_random := "0.7k2c9d1qx";
     dayjs_now := "2024-06-03T12:00:00.000Z" |}.

(** A form that is submitted without a date. *)
Definition undated : FormValues :=
  {| picked_title := "Buy eggs";
     picked_description := "A dozen, free range";
     picked_dueDate := None;
     picked_priority := low |}.

(** A storage that refuses every write. *)
Definition refusing : string -> bool := fun _ => false.

End SampleUi.

(** ** Properties of the value operations *)

Lemma own_prop_set_prop_eq k v props : own_prop k (set_prop k v props) = Some v.
Proof.
  induction props as [|[k' v'] rest IH]; simpl.
  - by rewrite String.eqb_refl.
  - destruct (String.eqb k k') eqn:E; simpl.
    + by rewrite String.eqb_refl.
    + by rewrite E.
Qed.

Lemma own_prop_set_prop_ne k k' v props :
  k <> k' -> own_prop k (set_prop k' v props) = own_prop k props.
Proof.
  intros Hne. induction props as [|[k0 v0] rest IH]; simpl.
  - by apply String.eqb_neq in Hne as ->.
  - destruct (String.eqb k' k0) eqn:E; simpl.
    + apply String.eqb_eq in E as <-. by apply String.eqb_neq in Hne as ->.
    + by rewrite IH.
Qed.

Lemma own_prop_cons_None k k' v props :
  own_prop k ((k', v) :: props) = None -> k <> k' /\ own_prop k props = None.
Proof.
  simpl. destruct (String.eqb k k') eqn:E; [done|].
  by apply String.eqb_neq in E.
Qed.

(** A spread leaves alone the properties that its source does not name. *)
Lemma own_prop_spread_into_absent k target source :
  own_prop k source = None ->
  own_prop k (spread_into target source) = own_prop k target.
Proof.
  revert target. induction source as [|[k' v] rest IH]; intros target Hk; [done|].
  apply own_prop_cons_None in Hk as [Hne Hrest].
  unfold spread_into in *. simpl. rewrite IH by done.
  by apply own_prop_set_prop_ne.
Qed.

Lemma own_prop_None k props : own_prop k props = None <-> k ∉ props.*1.
Proof.
  induction props as [|[k' v] rest IH]; simpl.
  - split; [|done]. intros _. apply not_elem_of_nil.
  - rewrite not_elem_of_cons. destruct (String.eqb k k') eqn:E.
    + apply String.eqb_eq in E. split; [done|]. by intros [? _].
    + apply String.eqb_neq in E. rewrite IH. tauto.
Qed.

(** A spread gives each property the value the source has for it, and
    else the value of the target. *)
Lemma own_prop_spread_into k target source :
  NoDup source.*1 ->
  own_prop k (spread_into target source)
  = match own_prop k source with
    | Some v => Some v
    | None => own_prop k target
    end.
Proof.
  revert target. induction source as [|[k' v] rest IH]; intros target Hnodup; [done|].
  rewrite fmap_cons, NoDup_cons in Hnodup. destruct Hnodup as [Hnotin Hnodup].
  cbn [fst] in Hnotin. unfold spread_into in *. cbn [fold_left fst snd own_prop]. rewrite IH by done.
  destruct (String.eqb k k') eqn:E.
  - apply String.eqb_eq in E as ->.
    apply own_prop_None in Hnotin as ->. apply own_prop_set_prop_eq.
  - apply String.eqb_neq in E. destruct (own_prop k rest); [done|].
    by apply own_prop_set_prop_ne.
Qed.

Lemma set_prop_keys k v props : k ∈ props.*1 -> (set_prop k v props).*1 = props.*1.
Proof.
  induction props as [|[k' v'] rest IH]; [by intros ?%elem_of_nil|].
  cbn [set_prop]. rewrite fmap_cons. cbn [fst].
  destruct (String.eqb k k') eqn:E.
  - by apply String.eqb_eq in E as ->.
  - apply String.eqb_neq in E. intros [?|Hin]%elem_of_cons; [done|].
    rewrite fmap_cons. cbn [fst]. by rewrite IH.
Qed.

Lemma spread_into_keys target source :
  (forall k, k ∈ source.*1 -> k ∈ target.*1) ->
  (spread_into target source).*1 = target.*1.
Proof.
  revert target. induction source as [|[k v] rest IH]; intros target Hin; [done|].
  unfold spread_into in *. simpl.
  assert (k ∈ target.*1) as Hk by (apply Hin; left).
  rewrite IH; [by apply set_prop_keys|].
  intros k' Hk'. rewrite set_prop_keys by done. apply Hin. by right.
Qed.

(** Objects with the same keys in the same order and the same value for
    each key are the same. *)
Lemma props_ext (ps qs : list (string * value)) :
  ps.*1 = qs.*1 -> NoDup ps.*1 ->
  (forall k, own_prop k ps = own_prop k qs) -> ps = qs.
Proof.
  revert qs. induction ps as [|[k v] ps IH]; intros [|[k' v'] qs]; try done.
  simpl. intros [= <- Hkeys] [Hnotin Hnodup]%NoDup_cons Hext.
  pose proof (Hext k) as Hk. simpl in Hk. rewrite String.eqb_refl in Hk.
  injection Hk as <-. f_equal. apply IH; [done..|].
  intros k'. specialize (Hext k'). simpl in Hext.
  destruct (String.eqb k' k) eqn:E; [|done].
  apply String.eqb_eq in E as ->.
  pose proof Hnotin as Hnotin'. rewrite Hkeys in Hnotin'.
  apply own_prop_None in Hnotin, Hnotin'. by rewrite Hnotin, Hnotin'.
Qed.

Lemma id_is_has_id id t : t <> VNull -> id_is id t = Normal (has_id id t).
Proof. by destruct t. Qed.

Lemma id_is_Normal id t b : id_is id t = Normal b -> t <> VNull /\ has_id id t = b.
Proof. destruct t; simpl; intros [= <-] || intros [=]; done. Qed.

(** On an array without [null] whose elements do not have the id, the
    test [t.id === id] returns [false] on every element. *)
Lemma id_is_absent id l :
  Forall (fun t => t <> VNull) l ->
  Forall (fun t => has_id id t = false) l ->
  Forall (fun t => id_is id t = Normal false) l.
Proof.
  induction 1 as [|t l Ht _ IH]; [constructor|].
  intros [Hid Hrest]%Forall_cons. constructor; [|by apply IH].
  by rewrite id_is_has_id, Hid.
Qed.

Lemma has_id_true id t :
  has_id id t = true ->
  exists props, t = VObj props /\ own_prop "id" props = Some (VStr id).
Proof.
  destruct t as [| | | | |props]; try done. simpl.
  destruct (own_prop "id" props) as [[| | |s| |]|] eqn:E; try done.
  intros ->%String.eqb_eq. eauto.
Qed.

Lemma array_find_absent id l :
  Forall (fun t => id_is id t = Normal false) l ->
  array_find (id_is id) l = Normal None.
Proof. induction 1 as [|t l Ht _ IH]; simpl; [done|]. by rewrite Ht. Qed.

Lemma array_findIndex_absent id l :
  Forall (fun t => id_is id t = Normal false) l ->
  array_findIndex (id_is id) l = Normal None.
Proof. induction 1 as [|t l Ht _ IH]; simpl; [done|]. by rewrite Ht, IH. Qed.

(** [findIndex] stops at the first element whose [id] matches. *)
Lemma array_findIndex_first id l i t :
  Forall (fun t' => id_is id t' = Normal false) (take i l) ->
  l !! i = Some t ->
  has_id id t = true ->
  array_findIndex (id_is id) l = Normal (Some i).
Proof.
  revert i. induction l as [|t' l IH]; intros [|i] Hbefore Hi Ht; try done.
  - simpl in Hi. injection Hi as ->. simpl.
    rewrite id_is_has_id, Ht; [done|]. by destruct t.
  - simpl in *. apply Forall_cons in Hbefore as [-> Hbefore]. simpl.
    by rewrite (IH i).
Qed.

Lemma array_findIndex_Some id l i :
  array_findIndex (id_is id) l = Normal (Some i) ->
  exists props, l !! i = Some (VObj props) /\ own_prop "id" props = Some (VStr id).
Proof.
  revert i. induction l as [|t l IH]; intros i; simpl; [done|].
  destruct (id_is id t) as [[]|] eqn:Et; simpl; [| |done].
  - intros [= <-]. apply id_is_Normal in Et as [_ Ht].
    apply has_id_true in Ht as (props & -> & Hid). eauto.
  - destruct (array_findIndex (id_is id) l) as [[j|]|] eqn:Ej; simpl; [|done..].
    intros [= <-]. by apply IH.
Qed.

Lemma array_filter_id_is_not id l :
  Forall (fun t => t <> VNull) l ->
  array_filter (id_is_not id) l
  = Normal (List.filter (fun t => negb (has_id id t)) l).
Proof.
  induction 1 as [|t l Ht _ IH]; simpl; [done|].
  unfold id_is_not at 1. rewrite id_is_has_id by done. simpl.
  rewrite IH. simpl. by destruct (has_id id t).
Qed.

Lemma filter_absent id l :
  Forall (fun t => has_id id t = false) l ->
  List.filter (fun t => negb (has_id id t)) l = l.
Proof. induction 1 as [|t l Ht _ IH]; simpl; [done|]. by rewrite Ht, IH. Qed.

Lemma filter_removed id l :
  Forall (fun t => has_id id t = false) (List.filter (fun t => negb (has_id id t)) l).
Proof.
  induction l as [|t l IH]; simpl; [done|].
  destruct (has_id id t) eqn:Et; simpl; [done|]. by constructor.
Qed.

Lemma filter_keeps_non_null (f : value -> bool) l :
  Forall (fun t => t <> VNull) l -> Forall (fun t => t <> VNull) (List.filter f l).
Proof.
  induction 1 as [|t l Ht _ IH]; simpl; [done|].
  destruct (f t); [by constructor|done].
Qed.

(** ** Properties of the identifiers *)

Lemma value36_digit36 d : 0 <= d < 36 -> value36 (digit36 d) = d.
Proof.
  intros Hd.
  assert (Forall (fun d => value36 (digit36 d) = d) (Z.of_nat <$> seq 0 36)) as H
    by (vm_compute; repeat constructor).
  rewrite Forall_forall in H. apply H.
  apply list_elem_of_fmap. exists (Z.to_nat d). split; [lia|].
  apply list_elem_of_In, in_seq. lia.
Qed.

Lemma length_append a b :
  String.length (a +:+ b) = (String.length a + String.length b)%nat.
Proof.
  induction a as [|c a IH]; [done|].
  change (S (String.length (a +:+ b)) = S (String.length a + String.length b)).
  by rewrite IH.
Qed.

Lemma fromString36_append a s t :
  fromString36 a (s +:+ t) = fromString36 (fromString36 a s) t.
Proof. revert a. induction s as [|c s IH]; intros a; [done|]. apply IH. Qed.

Lemma append_assoc a b c : (a +:+ b) +:+ c = a +:+ (b +:+ c).
Proof.
  induction a as [|x a IH]; [done|].
  change (String x ((a +:+ b) +:+ c) = String x (a +:+ b +:+ c)). by rewrite IH.
Qed.

(** [toString36_aux] writes [n] in front of [acc]: the digits read back as
    [n], and there are as many as [n] needs. *)
Lemma toString36_aux_spec fuel : forall n acc,
  0 <= n < 36 ^ Z.of_nat (S fuel) ->
  exists ds,
    toString36_aux (S fuel) n acc = (ds +:+ acc) /\
    (forall a, fromString36 a ds = a * 36 ^ Z.of_nat (String.length ds) + n) /\
    (0 < String.length ds)%nat /\
    36 ^ Z.of_nat (String.length ds - 1) <= Z.max n 1 /\
    n < 36 ^ Z.of_nat (String.length ds).
Proof.
  induction fuel as [|fuel IH]; intros n acc Hn.
  - change (36 ^ Z.of_nat 1) with 36 in Hn.
    cbn [toString36_aux]. assert ((n <? 36) = true) as -> by lia.
    exists (String (digit36 (n mod 36)) EmptyString).
    split; [done|]. simpl. rewrite Z.mod_small by lia.
    rewrite value36_digit36 by lia. repeat split; lia.
  - remember (S fuel) as fuel'. cbn [toString36_aux].
    destruct (n <? 36) eqn:Hlt.
    + apply Z.ltb_lt in Hlt. exists (String (digit36 (n mod 36)) EmptyString).
      split; [done|]. simpl. rewrite Z.mod_small by lia.
      rewrite value36_digit36 by lia. repeat split; lia.
    + apply Z.ltb_ge in Hlt. subst fuel'.
      destruct (IH (n / 36) (String (digit36 (n mod 36)) acc))
        as (ds & Heq & Hval & Hpos & Hlow & Hhigh).
      { split; [apply Z.div_pos; lia|].
        apply Z.div_lt_upper_bound; [lia|].
        rewrite (Nat2Z.inj_succ (S fuel)), Z.pow_succ_r in Hn by lia. lia. }
      exists (ds +:+ String (digit36 (n mod 36)) EmptyString).
      rewrite Heq, append_assoc. split; [done|].
      rewrite length_append. cbn [String.length].
      replace (String.length ds + 1)%nat with (S (String.length ds)) by lia.
      rewrite Nat2Z.inj_succ, Z.pow_succ_r by lia.
      assert (n = 36 * (n / 36) + n mod 36) as Hdm by (apply Z.div_mod; lia).
      assert (0 <= n mod 36 < 36) as Hmod by (apply Z.mod_pos_bound; lia).
      repeat split.
      * intros a. rewrite fromString36_append, Hval. simpl.
        rewrite value36_digit36 by lia. lia.
      * lia.
      * replace (S (String.length ds) - 1)%nat with (S (String.length ds - 1)) by lia.
        rewrite Nat2Z.inj_succ, Z.pow_succ_r by lia.
        assert (1 <= n / 36) by (apply Z.div_le_lower_bound; lia). lia.
      * lia.
Qed.

Lemma append_nil_r s : s +:+ EmptyString = s.
Proof.
  induction s as [|c s IH]; [done|].
  change (String c (s +:+ EmptyString) = String c s). by rewrite IH.
Qed.

(** The base-36 text of a non-negative integer reads back as the integer,
    and has as many digits as the integer needs. *)
Lemma toString36_spec n :
  0 <= n ->
  fromString36 0 (toString36 n) = n /\
  36 ^ Z.of_nat (String.length (toString36 n) - 1) <= Z.max n 1 /\
  n < 36 ^ Z.of_nat (String.length (toString36 n)).
Proof.
  intros Hn. unfold toString36. assert ((n <? 0) = false) as -> by lia.
  destruct (toString36_aux_spec (Z.to_nat (Z.log2 n)) n EmptyString)
    as (ds & -> & Hval & _ & Hlow & Hhigh).
  { split; [done|]. rewrite Nat2Z.inj_succ, Z2Nat.id by apply Z.log2_nonneg.
    destruct (decide (n = 0)) as [->|Hne]; [done|].
    eapply Z.lt_le_trans; [apply Z.log2_spec; lia|].
    apply Z.pow_le_mono_l. lia. }
  rewrite append_nil_r, Hval. repeat split; [lia|done..].
Qed.

Lemma toString36_inj n m :
  0 <= n -> 0 <= m -> toString36 n = toString36 m -> n = m.
Proof.
  intros Hn Hm Heq.
  destruct (toString36_spec n Hn) as [<- _].
  destruct (toString36_spec m Hm) as [<- _]. by rewrite Heq.
Qed.

(** From 1972 to 2059 the clock has eight digits in base 36. *)
Lemma toString36_length n :
  36 ^ 7 <= n < 36 ^ 8 -> String.length (toString36 n) = 8%nat.
Proof.
  intros Hn. destruct (toString36_spec n) as (_ & Hlow & Hhigh); [lia|].
  set (len := String.length (toString36 n)) in *.
  rewrite Z.max_l in Hlow by lia.
  assert (Z.of_nat (len - 1) < 8).
  { apply (Z.pow_lt_mono_r_iff 36); lia. }
  assert (7 < Z.of_nat len).
  { apply (Z.pow_lt_mono_r_iff 36); lia. }
  lia.
Qed.

Lemma append_inj a b c d :
  String.length a = String.length b -> a +:+ c = b +:+ d -> a = b /\ c = d.
Proof.
  revert b. induction a as [|x a IH]; intros [|y b] Hlen Heq; try done.
  change (String x (a +:+ c) = String y (b +:+ d)) in Heq.
  injection Heq as -> Heq. destruct (IH b) as [-> ->]; [by injection Hlen|done..].
Qed.

(** While the clock has eight digits, two generated ids are the same only
    when both the clock and what is kept of the random number are. *)
Lemma generateId_inj e1 e2 :
  36 ^ 7 <= Date_now e1 < 36 ^ 8 ->
  36 ^ 7 <= Date_now e2 < 36 ^ 8 ->
  generateId e1 = generateId e2 ->
  Date_now e1 = Date_now e2 /\
  substring2 (Math_random e1) = substring2 (Math_random e2).
Proof.
  intros H1 H2 Heq. unfold generateId in Heq.
  apply append_inj in Heq as [Hclock Hrandom];
    [|by rewrite !toString36_length].
  split; [|done]. apply toString36_inj; [lia..|done].
Qed.

(** X10.  While the clock has eight digits in base 36, calls of
    [generateId] that read different clocks generate different ids,
    whatever the random numbers are. *)
Lemma generateId_distinct (envs : list Env) :
  Forall (fun e => 36 ^ 7 <= Date_now e < 36 ^ 8) envs ->
  NoDup (Date_now <$> envs) ->
  NoDup (generateId <$> envs).
Proof.
  induction 1 as [|e envs He Henvs IH]; [constructor|].
  rewrite !fmap_cons, !NoDup_cons. intros [Hnotin Hnodup].
  split; [|by apply IH]. intros Hin. apply Hnotin.
  apply list_elem_of_fmap in Hin as (e' & Heq & Hin).
  apply list_elem_of_fmap. exists e'. split; [|done].
  apply generateId_inj in Heq as [Hclock _]; [done..|].
  rewrite Forall_forall in Henvs. by apply Henvs.
Qed.

(** ** Properties of the run-time representation *)

Lemma status_string_inj s1 s2 : status_string s1 = status_string s2 -> s1 = s2.
Proof. by destruct s1, s2. Qed.

Lemma priority_string_inj p1 p2 :
  priority_string p1 = priority_string p2 -> p1 = p2.
Proof. by destruct p1, p2. Qed.

(** Two tasks with the same representation agree field for field. *)
Lemma task_value_inj t1 t2 : task_value t1 = task_value t2 -> t1 = t2.
Proof.
  destruct t1, t2. unfold task_value, task_props. simpl.
  intros [= -> -> -> -> Hp%priority_string_inj Hs%status_string_inj -> ->].
  by subst.
Qed.

Lemma tasks_value_inj ts1 ts2 : tasks_value ts1 = tasks_value ts2 -> ts1 = ts2.
Proof.
  unfold tasks_value. intros [= H]. revert ts2 H.
  induction ts1 as [|t1 ts1 IH]; intros [|t2 ts2] H; try done.
  rewrite !fmap_cons in H.
  f_equal; [apply task_value_inj | apply IH]; congruence.
Qed.

Lemma tasks_value_snoc ts t :
  tasks_value (ts ++ [t]) = VArr ((task_value <$> ts) ++ [task_value t]).
Proof. unfold tasks_value. by rewrite fmap_app. Qed.

Lemma has_id_task id t : has_id id (task_value t) = String.eqb (task_id t) id.
Proof. done. Qed.

Lemma id_is_task id t : id_is id (task_value t) = Normal (String.eqb (task_id t) id).
Proof. done. Qed.

Lemma task_value_not_null t : task_value t <> VNull.
Proof. done. Qed.

Lemma tasks_not_null ts : Forall (fun t => t <> VNull) (task_value <$> ts).
Proof. apply Forall_fmap, Forall_true. intros t. apply task_value_not_null. Qed.

(** The spread of [update] on a task and a typed patch is the field-wise
    merge [patched]. *)
Lemma spread_typed_patch t u now :
  set_prop "updatedAt" (VStr now) (spread_into (task_props t) (update_props u))
  = task_props (patched t u now).
Proof.
  destruct u as [[?|] [?|] [?|] [?|] [?|]]; reflexivity.
Qed.

Lemma own_prop_update_props_id u : own_prop "id" (update_props u) = None.
Proof. destruct u as [[?|] [?|] [?|] [?|] [?|]]; reflexivity. Qed.

Lemma own_prop_update_props_createdAt u :
  own_prop "createdAt" (update_props u) = None.
Proof. destruct u as [[?|] [?|] [?|] [?|] [?|]]; reflexivity. Qed.

Lemma update_props_keys u k : k ∈ (update_props u).*1 -> k ∈ patch_keys.
Proof.
  unfold patch_keys.
  destruct u as [[?|] [?|] [?|] [?|] [?|]]; simpl;
    rewrite ?elem_of_cons, ?elem_of_nil; tauto.
Qed.

Lemma patch_keys_task t k : k ∈ patch_keys -> k ∈ (task_props t).*1.
Proof. unfold patch_keys. simpl. rewrite ?elem_of_cons, ?elem_of_nil. tauto. Qed.

Lemma update_props_NoDup u : NoDup (update_props u).*1.
Proof.
  destruct u as [[?|] [?|] [?|] [?|] [?|]]; simpl;
    apply (bool_decide_unpack _); vm_compute; exact I.
Qed.

Lemma task_props_NoDup t : NoDup (task_props t).*1.
Proof. simpl. apply (bool_decide_unpack _). vm_compute. exact I. Qed.

Lemma patch_of_keys u data k : patch_of u data -> k ∈ data.*1 -> k ∈ patch_keys.
Proof.
  intros [_ Hsame] Hk. apply (update_props_keys u).
  destruct (decide (k ∈ (update_props u).*1)) as [|Hn]; [done|].
  apply own_prop_None in Hn. rewrite <- Hsame in Hn.
  by apply own_prop_None in Hn.
Qed.

(** The spread of [update] on a task and a patch object of type
    [UpdateTaskRequest] is the field-wise merge [patched], whatever the
    order of the properties of the patch. *)
Lemma spread_patch_of t u data now :
  patch_of u data ->
  set_prop "updatedAt" (VStr now) (spread_into (task_props t) data)
  = task_props (patched t u now).
Proof.
  intros Hdata. pose proof Hdata as [Hnodup Hsame].
  rewrite <- spread_typed_patch.
  assert ((spread_into (task_props t) data).*1 = (task_props t).*1) as Hkeys.
  { apply spread_into_keys. intros k Hk.
    by eapply patch_keys_task, patch_of_keys. }
  assert ((spread_into (task_props t) (update_props u)).*1 = (task_props t).*1)
    as Hkeys'.
  { apply spread_into_keys. intros k Hk.
    by eapply patch_keys_task, update_props_keys. }
  assert ("updatedAt" ∈ (task_props t).*1) as Hin
    by (simpl; rewrite ?elem_of_cons; tauto).
  apply props_ext.
  - by rewrite !set_prop_keys, Hkeys, Hkeys' by (by rewrite ?Hkeys, ?Hkeys').
  - rewrite set_prop_keys, Hkeys by (by rewrite Hkeys). apply task_props_NoDup.
  - intros k. destruct (decide (k = "updatedAt")) as [->|Hne].
    + by rewrite !own_prop_set_prop_eq.
    + rewrite !own_prop_set_prop_ne by done.
      rewrite !own_prop_spread_into by (done || apply update_props_NoDup).
      by rewrite Hsame.
Qed.

Lemma patch_of_update_props u : patch_of u (update_props u).
Proof. split; [apply update_props_NoDup|done]. Qed.

(** An id is either the id of no task of a list, or of a first one. *)
Lemma first_with_id id ts :
  Forall (fun t => task_id t <> id) ts \/
  exists i t, ts !! i = Some t /\ task_id t = id /\
              Forall (fun t' => task_id t' <> id) (take i ts).
Proof.
  induction ts as [|t ts [IH|(i & t' & Hi & Ht & Hbefore)]].
  - by left.
  - destruct (decide (task_id t = id)) as [Heq|Hne].
    + right. exists 0%nat, t. by repeat split.
    + left. by constructor.
  - destruct (decide (task_id t = id)) as [Heq|Hne].
    + right. exists 0%nat, t. by repeat split.
    + right. exists (S i), t'. repeat split; [done..|]. simpl. by constructor.
Qed.

Lemma tasks_without_id id ts :
  Forall (fun t => task_id t <> id) ts ->
  Forall (fun t => id_is id t = Normal false) (task_value <$> ts).
Proof.
  intros H. apply Forall_fmap. eapply Forall_impl; [exact H|].
  intros t Hne. simpl. by apply String.eqb_neq in Hne as ->.
Qed.

(** [filter] on the representation is a filter on the tasks. *)
Lemma filter_tasks id ts :
  List.filter (fun t => negb (has_id id t)) (task_value <$> ts)
  = task_value <$> List.filter (fun t => negb (String.eqb (task_id t) id)) ts.
Proof.
  induction ts as [|t ts IH]; [done|].
  rewrite fmap_cons. cbn [List.filter]. rewrite has_id_task, IH.
  by destruct (String.eqb (task_id t) id).
Qed.

Lemma ids_filter_sublist (f : Task -> bool) ts :
  (task_id <$> List.filter f ts) `sublist_of` (task_id <$> ts).
Proof.
  induction ts as [|t ts IH]; simpl; [done|].
  destruct (f t); simpl; by constructor.
Qed.

(** ** The reference codec reads back what it writes *)

Section ReferenceCodec.

Import Reference.

Local Abbreviation chars := String.list_ascii_of_string.

Lemma chars_app a b : chars (a +:+ b) = chars a ++ chars b.
Proof. induction a as [|c a IH]; simpl; [done|]. by rewrite IH. Qed.

Lemma parse_chars_escape s rest :
  parse_chars (chars (escape s) ++ dquote :: rest) = Some (s, rest).
Proof.
  induction s as [|c s IH]; [done|].
  simpl. destruct (Ascii.eqb c dquote || Ascii.eqb c backslash) eqn:E.
  - cbn [chars app parse_chars].
    replace (Ascii.eqb backslash dquote) with false by done.
    replace (Ascii.eqb backslash backslash) with true by done.
    unfold unescape.
    rewrite E. simpl. rewrite IH. done.
  - cbn [chars app parse_chars]. apply orb_false_elim in E as [-> ->]. rewrite IH. done.
Qed.

Lemma skip_ws_dquote cs : skip_ws (dquote :: cs) = dquote :: cs.
Proof. done. Qed.

Lemma parse_value_quote fuel s rest :
  parse_value (S fuel) (chars (quote s) ++ rest) = Some (VStr s, rest).
Proof.
  unfold quote. cbn [chars app]. rewrite chars_app. cbn [chars app].
  rewrite <- app_assoc. cbn [app].
  cbn [parse_value]. rewrite skip_ws_dquote.
  replace (Ascii.eqb dquote "n") with false by done.
  replace (Ascii.eqb dquote "t") with false by done.
  replace (Ascii.eqb dquote "f") with false by done.
  replace (Ascii.eqb dquote dquote) with true by done.
  cbv iota. rewrite parse_chars_escape. done.
Qed.

Lemma chars_quote s : chars (quote s) = dquote :: chars (escape s) ++ [dquote].
Proof. unfold quote. cbn [String.list_ascii_of_string]. by rewrite chars_app. Qed.

Ltac flatten :=
  rewrite ?chars_app, ?chars_quote;
  repeat (progress (cbn [String.list_ascii_of_string app]; rewrite <- ?app_assoc)).

Lemma parse_value_quoted fuel s rest :
  parse_value (S fuel) (dquote :: chars (escape s) ++ dquote :: rest)
  = Some (VStr s, rest).
Proof.
  rewrite <- (parse_value_quote fuel s rest). by flatten.
Qed.

Lemma skip_ws_keep c cs : is_ws c = false -> skip_ws (c :: cs) = c :: cs.
Proof. intros H. simpl. by rewrite H. Qed.

Lemma parse_members_S f cs :
  parse_members (S f) cs
  = match skip_ws cs with
    | c :: rest =>
        if Ascii.eqb c dquote then
          '(k, rest1) ← parse_chars rest;
          match skip_ws rest1 with
          | ":"%char :: rest2 =>
              '(v, rest3) ← parse_value f rest2;
              match skip_ws rest3 with
              | ","%char :: rest4 =>
                  '(ps, rest5) ← parse_members f rest4;
                  Some ((k, v) :: ps, rest5)
              | "}"%char :: rest4 => Some ([(k, v)], rest4)
              | _ => None
              end
          | _ => None
          end
        else None
    | [] => None
    end.
Proof. done. Qed.

Lemma parse_elements_S f cs :
  parse_elements (S f) cs
  = '(v, rest) ← parse_value f cs;
    match skip_ws rest with
    | ","%char :: rest' =>
        '(l, rest'') ← parse_elements f rest'; Some (v :: l, rest'')
    | "]"%char :: rest' => Some ([v], rest')
    | _ => None
    end.
Proof. done. Qed.

Lemma parse_members_more f k s more rest :
  parse_members (S (S f))
    (chars ((quote k +:+ ":" +:+ quote s) +:+ "," +:+ more) ++ rest)
  = '(ps, r) ← parse_members (S f) (chars more ++ rest);
    Some ((k, VStr s) :: ps, r).
Proof.
  flatten. rewrite parse_members_S, skip_ws_dquote, Ascii.eqb_refl.
  rewrite parse_chars_escape. cbn [mbind option_bind].
  rewrite (skip_ws_keep ":") by done. cbv iota.
  rewrite parse_value_quoted. cbn [mbind option_bind].
  rewrite (skip_ws_keep ",") by done. cbv iota. done.
Qed.

Lemma parse_members_last f k s rest :
  parse_members (S (S f)) (chars (quote k +:+ ":" +:+ quote s) ++ "}"%char :: rest)
  = Some ([(k, VStr s)], rest).
Proof.
  flatten. rewrite parse_members_S, skip_ws_dquote, Ascii.eqb_refl.
  rewrite parse_chars_escape. cbn [mbind option_bind].
  rewrite (skip_ws_keep ":") by done. cbv iota.
  rewrite parse_value_quoted. cbn [mbind option_bind].
  rewrite (skip_ws_keep "}") by done. cbv iota. done.
Qed.

Lemma parse_value_lbrace f cs :
  (forall rest, skip_ws cs <> "}"%char :: rest) ->
  parse_value (S f) ("{"%char :: cs)
  = '(ps, rest') ← parse_members f cs; Some (VObj (spread_into [] ps), rest').
Proof.
  intros H. cbn [parse_value]. rewrite (skip_ws_keep "{") by done.
  replace (Ascii.eqb "{" dquote) with false by done.
  cbn [Ascii.eqb Bool.eqb]. cbv iota.
  destruct (skip_ws cs) as [|c rest] eqn:E; [done|].
  destruct c as [[] [] [] [] [] [] [] []]; try done. by destruct (H rest).
Qed.

Lemma parse_value_task f t rest :
  parse_value (10 + f) (chars (stringify (task_value t)) ++ rest)
  = Some (task_value t, rest).
Proof.
  unfold task_value at 1, task_props. cbn [stringify List.map join stringify].
  rewrite chars_app. cbn [String.list_ascii_of_string app Nat.add].
  rewrite parse_value_lbrace.
  2:{ intros r. flatten. by rewrite skip_ws_dquote. }
  rewrite (chars_app _ "}"), <- app_assoc.
  do 7 rewrite parse_members_more.
  change (chars "}" ++ rest) with ("}"%char :: rest).
  rewrite parse_members_last. done.
Qed.

Lemma parse_elements_tasks ts t f rest :
  parse_elements (length ts + 11 + f)
    (chars (join "," (List.map stringify (task_value <$> t :: ts)))
     ++ "]"%char :: rest)
  = Some (task_value <$> t :: ts, rest).
Proof.
  revert t. induction ts as [|t' ts IH]; intros t.
  - cbn [length Nat.add fmap list_fmap List.map join].
    rewrite parse_elements_S. change (S (S (S (S (S (S (S (S (S (S f)))))))))) with (10 + f)%nat.
    rewrite parse_value_task. cbn [mbind option_bind].
    by rewrite (skip_ws_keep "]") by done.
  - specialize (IH t'). rewrite !fmap_cons in *. cbn [List.map join] in *.
    cbn [length Nat.add]. rewrite parse_elements_S.
    replace (length ts + 11 + f)%nat with (10 + (length ts + 1 + f))%nat by lia.
    rewrite chars_app, <- app_assoc. rewrite parse_value_task.
    cbn [mbind option_bind]. rewrite chars_app, <- app_assoc.
    cbn [String.list_ascii_of_string app].
    rewrite (skip_ws_keep ",") by done. cbv iota.
    replace (10 + (length ts + 1 + f))%nat with (length ts + 11 + f)%nat by lia.
    by rewrite IH.
Qed.

Lemma task_text_length t : (9 <= length (chars (stringify (task_value t))))%nat.
Proof.
  unfold task_value, task_props. cbn [stringify List.map join].
  rewrite chars_app. cbn [String.list_ascii_of_string app length].
  rewrite !chars_app, !length_app, !chars_quote. cbn [length]. lia.
Qed.

Lemma tasks_text_length ts :
  (9 * length ts
   <= length (chars (join "," (List.map stringify (task_value <$> ts)))))%nat.
Proof.
  induction ts as [|t ts IH]; [simpl; lia|].
  rewrite fmap_cons. cbn [List.map join].
  pose proof (task_text_length t) as Ht.
  destruct ts as [|t' ts]; [simpl in *; lia|].
  rewrite fmap_cons in *. cbn [List.map] in *.
  rewrite chars_app, length_app, chars_app, length_app.
  cbn [length] in *. lia.
Qed.

Lemma parse_value_lbracket f cs :
  (forall rest, skip_ws cs <> "]"%char :: rest) ->
  parse_value (S f) ("["%char :: cs)
  = '(l, rest') ← parse_elements f cs; Some (VArr l, rest').
Proof.
  intros H. cbn [parse_value]. rewrite (skip_ws_keep "[") by done.
  replace (Ascii.eqb "[" dquote) with false by done.
  cbn [Ascii.eqb Bool.eqb]. cbv iota.
  destruct (skip_ws cs) as [|c rest] eqn:E; [done|].
  destruct c as [[] [] [] [] [] [] [] []]; try done. by destruct (H rest).
Qed.

(** Every collection of tasks comes back from its text. *)
Lemma parse_stringify_tasks ts :
  parse (stringify (tasks_value ts)) = Some (tasks_value ts).
Proof.
  destruct ts as [|t ts]; [done|].
  unfold parse, tasks_value. cbn [stringify].
  set (J := join "," _).
  assert (length ts + 11 <= length (chars ("[" +:+ J +:+ "]")))%nat as Hlen.
  { pose proof (tasks_text_length (t :: ts)) as H. fold J in H.
    rewrite chars_app, length_app, chars_app, length_app.
    cbn [length String.list_ascii_of_string] in *. lia. }
  rewrite chars_app in *. cbn [String.list_ascii_of_string app] in *.
  rewrite parse_value_lbracket.
  2:{ intros r. unfold J. rewrite fmap_cons. cbn [List.map join].
      destruct (List.map stringify (task_value <$> ts));
        cbn [task_value stringify]; flatten; by rewrite (skip_ws_keep "{"). }
  cbn [length] in *.
  replace (S (length (chars (J +:+ "]"))))
    with (length ts + 11 + (S (length (chars (J +:+ "]"))) - length ts - 11))%nat
    by lia.
  rewrite chars_app. change (chars "]") with ["]"%char].
  unfold J. rewrite parse_elements_tasks. done.
Qed.

End ReferenceCodec.

(** ** Properties of the service *)

Section Properties.

Variable JSON_parse : string -> option value.
Variable JSON_stringify : value -> string.
Variable setItem_accepts : string -> bool.

Local Abbreviation getAllTasks := (getAllTasks JSON_parse).
Local Abbreviation saveTasks := (saveTasks JSON_stringify setItem_accepts).
Local Abbreviation reads_back := (reads_back JSON_parse JSON_stringify).
Local Abbreviation getAll := (getAll JSON_parse).
Local Abbreviation getById := (getById JSON_parse).
Local Abbreviation create := (create JSON_parse JSON_stringify setItem_accepts).
Local Abbreviation update := (update JSON_parse JSON_stringify setItem_accepts).
Local Abbreviation delete := (delete JSON_parse JSON_stringify setItem_accepts).
Local Abbreviation create_all :=
  (create_all JSON_parse JSON_stringify setItem_accepts).
Local Abbreviation run := (run JSON_parse JSON_stringify setItem_accepts).
Local Abbreviation ids ts := (task_id <$> ts).

(** *** The store *)

Lemma getAllTasks_parsed stored v :
  stored <> EmptyString -> JSON_parse stored = Some v ->
  getAllTasks (Some stored) = v.
Proof.
  intros Hne Hv. unfold getAllTasks.
  apply String.eqb_neq in Hne as ->. by rewrite Hv.
Qed.

Lemma getAllTasks_unparsable stored :
  JSON_parse stored = None -> getAllTasks (Some stored) = VArr [].
Proof.
  intros Hv. unfold getAllTasks.
  destruct (String.eqb stored EmptyString); [done|]. by rewrite Hv.
Qed.

Lemma saveTasks_accepted v st :
  setItem_accepts (JSON_stringify v) = true ->
  saveTasks v st = Some (JSON_stringify v).
Proof. intros H. unfold saveTasks. by rewrite H. Qed.

Lemma saveTasks_refused v st :
  setItem_accepts (JSON_stringify v) = false -> saveTasks v st = st.
Proof. intros H. unfold saveTasks. by rewrite H. Qed.

(** After [saveTasks] the collection is the one saved, or the storage is
    the one before. *)
Lemma getAllTasks_saveTasks v st :
  reads_back v ->
  if setItem_accepts (JSON_stringify v)
  then getAllTasks (saveTasks v st) = v
  else saveTasks v st = st.
Proof.
  intros [Hne Hv]. destruct (setItem_accepts _) eqn:E.
  - rewrite saveTasks_accepted by done. by apply getAllTasks_parsed.
  - by apply saveTasks_refused.
Qed.

(** C6.  Whatever the slot holds, [getAll] returns and does not throw; and
    when the slot holds a text that [JSON.parse] rejects, [getAllTasks]
    and [getAll] give the empty array. *)
Theorem getAll_never_fails (st : Storage) :
  (exists v, getAll st = (Normal v, st)) /\
  (forall stored, st = Some stored -> JSON_parse stored = None ->
     getAllTasks st = VArr [] /\ getAll st = (Normal (VArr []), st)).
Proof.
  split; [by eexists|].
  intros stored -> Hbad. unfold getAll.
  by rewrite getAllTasks_unparsable.
Qed.

(** C7.  For every sequence of tasks [T], when the write of [saveTasks]
    is accepted and the platform reads the text of [T] back, the
    collection that [getAllTasks] loads after [saveTasks T] is [T], task
    for task and in the same order. *)
Theorem save_then_load (T : list Task) (st : Storage) :
  reads_back (tasks_value T) ->
  setItem_accepts (JSON_stringify (tasks_value T)) = true ->
  getAllTasks (saveTasks (tasks_value T) st) = tasks_value T.
Proof.
  intros Hrb Hok. pose proof (getAllTasks_saveTasks _ st Hrb) as H.
  by rewrite Hok in H.
Qed.

(** C9.  [getAll] and [getById] leave the slot as it was, whatever it
    holds and whether [getById] returns or throws. *)
Theorem reads_do_not_write (st : Storage) (id : string) :
  (getAll st).2 = st /\ (getById id st).2 = st.
Proof. done. Qed.

(** C10.  When the slot holds a text that [JSON.parse] accepts, the parsed
    value is what [getAllTasks] and [getAll] return, array or not. *)
Theorem parsed_value_as_is (stored : string) (v : value) :
  stored <> EmptyString -> JSON_parse stored = Some v ->
  getAllTasks (Some stored) = v /\
  getAll (Some stored) = (Normal v, Some stored).
Proof.
  intros Hne Hv. unfold getAll.
  by rewrite (getAllTasks_parsed _ v).
Qed.

(** *** Missing ids *)

(** C2, as the code has it.  When the slot is absent, unparsable or holds
    an array without [null] elements, and no element of the array has the
    id, [update] throws [Task not found] and leaves the slot as it was,
    whatever the patch; and so does [getById]. *)
Theorem missing_id_not_found
    (id : string) (data : list (string * value)) (e : Env)
    (st : Storage) (l : list value) :
  getAllTasks st = VArr l ->
  Forall (fun t => t <> VNull) l ->
  Forall (fun t => has_id id t = false) l ->
  update id data e st = (Throw TaskNotFound, st) /\
  getById id st = (Throw TaskNotFound, st).
Proof.
  intros Hl Hnn Habsent. unfold update, getById.
  rewrite Hl. simpl.
  by rewrite array_findIndex_absent, array_find_absent by by apply id_is_absent.
Qed.

(** *** Update *)

Lemma update_found id data e st l i :
  getAllTasks st = VArr l ->
  array_findIndex (id_is id) l = Normal (Some i) ->
  update id data e st
  = let updatedTask :=
      VObj (set_prop "updatedAt" (VStr (dayjs_now e))
              (spread_into (spread_source (l !! i)) data)) in
    (Normal updatedTask, saveTasks (VArr (<[i := updatedTask]> l)) st).
Proof. intros Hl Hi. unfold update. by rewrite Hl; simpl; rewrite Hi. Qed.

(** [update] on a stored task and a patch object of type
    [UpdateTaskRequest]. *)
Lemma update_typed ts i t u data e st :
  patch_of u data ->
  getAllTasks st = tasks_value ts ->
  Forall (fun t' => task_id t' <> task_id t) (take i ts) ->
  ts !! i = Some t ->
  update (task_id t) data e st
  = (Normal (task_value (patched t u (dayjs_now e))),
     saveTasks (tasks_value (<[i := patched t u (dayjs_now e)]> ts)) st).
Proof.
  intros Hdata Hl Hbefore Hi.
  assert ((task_value <$> ts) !! i = Some (task_value t)) as Hi'
    by by rewrite list_lookup_fmap, Hi.
  rewrite (update_found _ _ _ _ (task_value <$> ts) i); [|done|].
  - cbv zeta. rewrite Hi'. cbn [spread_source task_value].
    rewrite (spread_patch_of t u) by done. unfold tasks_value.
    by rewrite list_fmap_insert.
  - apply array_findIndex_first with (task_value t); [|done|].
    + rewrite <- fmap_take. by apply tasks_without_id.
    + rewrite has_id_task. apply String.eqb_refl.
Qed.

(** C1, as the code has it.  When the patch names neither [id] nor
    [createdAt] (no [UpdateTaskRequest] does), the task that [update]
    returns has the [id] and the [createdAt] of the stored one, it is the
    task handed to [saveTasks] in its place, and the task read from the
    slot afterwards (the write accepted or not) has them too. *)
Theorem update_keeps_identity
    (id : string) (data : list (string * value)) (e : Env)
    (st : Storage) (l : list value) (i : nat) (props : list (string * value)) :
  getAllTasks st = VArr l ->
  Forall (fun t => id_is id t = Normal false) (take i l) ->
  l !! i = Some (VObj props) ->
  own_prop "id" props = Some (VStr id) ->
  own_prop "id" data = None ->
  own_prop "createdAt" data = None ->
  exists props',
    update id data e st
    = (Normal (VObj props'), saveTasks (VArr (<[i := VObj props']> l)) st) /\
    own_prop "id" props' = Some (VStr id) /\
    own_prop "createdAt" props' = own_prop "createdAt" props /\
    (reads_back (VArr (<[i := VObj props']> l)) ->
     exists l' stored,
       getAllTasks (update id data e st).2 = VArr l' /\
       l' !! i = Some (VObj stored) /\
       own_prop "id" stored = Some (VStr id) /\
       own_prop "createdAt" stored = own_prop "createdAt" props).
Proof.
  intros Hl Hbefore Hi Hid Hdata_id Hdata_created.
  assert (array_findIndex (id_is id) l = Normal (Some i)) as Hfound.
  { apply array_findIndex_first with (VObj props); [done..|].
    simpl. rewrite Hid. apply String.eqb_refl. }
  rewrite (update_found _ _ _ _ l i) by done. cbv zeta.
  rewrite Hi. cbn [spread_source].
  set (props' := set_prop "updatedAt" _ _).
  assert (own_prop "id" props' = Some (VStr id)) as Hid'.
  { unfold props'. rewrite own_prop_set_prop_ne by done.
    by rewrite own_prop_spread_into_absent. }
  assert (own_prop "createdAt" props' = own_prop "createdAt" props) as Hc'.
  { unfold props'. rewrite own_prop_set_prop_ne by done.
    by rewrite own_prop_spread_into_absent. }
  exists props'. repeat split; [done..|].
  intros Hrb. pose proof (getAllTasks_saveTasks _ st Hrb) as Hsaved. simpl.
  destruct (setItem_accepts _).
  - exists (<[i := VObj props']> l), props'. rewrite Hsaved.
    repeat split; [|done..].
    apply list_lookup_insert_eq. by eapply lookup_lt_Some.
  - exists l, props. by rewrite Hsaved, Hl.
Qed.

(** C4, as the code has it.  [update] on a stored task and a patch object
    of type [UpdateTaskRequest] returns the field-wise merge [patched]:
    each field the patch names takes the value of the patch, each other
    field but [updatedAt] stays.  [updatedAt] is the reading of the clock,
    whatever the stored one was.  The merged task takes the place of the
    stored one in the collection handed to [saveTasks], which is the
    collection read afterwards when the write is accepted. *)
Theorem update_merges
    (ts : list Task) (i : nat) (t : Task) (u : UpdateTaskRequest)
    (data : list (string * value)) (e : Env) (st : Storage) :
  patch_of u data ->
  getAllTasks st = tasks_value ts ->
  Forall (fun t' => task_id t' <> task_id t) (take i ts) ->
  ts !! i = Some t ->
  let t' := patched t u (dayjs_now e) in
  update (task_id t) data e st
  = (Normal (task_value t'), saveTasks (tasks_value (<[i := t']> ts)) st) /\
  task_updatedAt t' = dayjs_now e /\
  (setItem_accepts (JSON_stringify (tasks_value (<[i := t']> ts))) = true ->
   reads_back (tasks_value (<[i := t']> ts)) ->
   getAllTasks (update (task_id t) data e st).2 = tasks_value (<[i := t']> ts)).
Proof.
  intros Hdata Hl Hbefore Hi t'. rewrite (update_typed ts i t u) by done.
  repeat split. intros Hok Hrb. simpl.
  pose proof (getAllTasks_saveTasks _ st Hrb) as H. by rewrite Hok in H.
Qed.

(** *** Create *)

Lemma create_array data e st l :
  getAllTasks st = VArr l ->
  create data e st
  = (Normal (task_value (created data e)),
     saveTasks (VArr (l ++ [task_value (created data e)])) st).
Proof. intros Hl. unfold create. by rewrite Hl. Qed.

Lemma create_returns data e st v :
  (create data e st).1 = Normal v -> v = task_value (created data e).
Proof.
  unfold create. destruct (iterate (getAllTasks st)); simpl; [|done].
  by intros [= <-].
Qed.

(** C3, as the code has it.  When the slot is absent, unparsable or holds
    an array, [create] returns the task built from the request: status
    [pending], [createdAt] and [updatedAt] the reading of the clock, the
    four fields of the request, and the generated id.  The collection with
    the task appended is handed to [saveTasks]; it is the collection read
    afterwards when the write is accepted. *)
Theorem create_appends
    (data : CreateTaskRequest) (e : Env) (st : Storage) (l : list value) :
  getAllTasks st = VArr l ->
  let t := created data e in
  create data e st
  = (Normal (task_value t), saveTasks (VArr (l ++ [task_value t])) st) /\
  (task_status t = pending /\ task_createdAt t = dayjs_now e /\
   task_updatedAt t = dayjs_now e /\ task_id t = generateId e /\
   task_title t = create_title data /\
   task_description t = create_description data /\
   task_dueDate t = create_dueDate data /\
   task_priority t = create_priority data) /\
  (setItem_accepts (JSON_stringify (VArr (l ++ [task_value t]))) = true ->
   reads_back (VArr (l ++ [task_value t])) ->
   getAllTasks (create data e st).2 = VArr (l ++ [task_value t])).
Proof.
  intros Hl t. unfold create. rewrite Hl. simpl.
  repeat split. intros Hok Hrb.
  pose proof (getAllTasks_saveTasks _ st Hrb) as H. by rewrite Hok in H.
Qed.

(** *** Delete *)

Lemma delete_array id st l :
  getAllTasks st = VArr l ->
  Forall (fun t => t <> VNull) l ->
  delete id st
  = (Normal tt,
     saveTasks (VArr (List.filter (fun t => negb (has_id id t)) l)) st).
Proof.
  intros Hl Hnn. unfold delete. rewrite Hl. simpl.
  by rewrite array_filter_id_is_not.
Qed.

Lemma array_filter_throws id l e :
  array_filter (id_is_not id) l = Throw e -> e = TypeError.
Proof.
  induction l as [|t l IH]; [done|]. cbn [array_filter].
  unfold id_is_not at 1. destruct t; simpl;
    try (destruct (array_filter (id_is_not id) l); simpl; [done|]; exact IH).
  by intros [= <-].
Qed.

(** Whatever the slot holds, [delete] does not throw [Task not found]. *)
Lemma delete_never_not_found id st : (delete id st).1 <> Throw TaskNotFound.
Proof.
  unfold delete. destruct (getAllTasks st) as [| | | |l|]; try done. simpl.
  destruct (array_filter (id_is_not id) l) eqn:E; [done|].
  apply array_filter_throws in E as ->. done.
Qed.

(** C5, as the code has it.  When the slot is absent, unparsable or holds
    an array without [null] elements (and the platform reads back what
    [delete] writes), [delete] returns; for an id that no element has the
    collection read afterwards is the one before; and a second [delete] of
    the same id ends as the first did.  A missing id is no error: what
    [delete] can throw is never [Task not found]. *)
Theorem delete_idempotent (id : string) (st : Storage) (l : list value) :
  getAllTasks st = VArr l ->
  Forall (fun t => t <> VNull) l ->
  let kept := List.filter (fun t => negb (has_id id t)) l in
  reads_back (VArr kept) ->
  delete id st = (Normal tt, saveTasks (VArr kept) st) /\
  (Forall (fun t => has_id id t = false) l ->
   getAllTasks (delete id st).2 = getAllTasks st) /\
  delete id (delete id st).2 = delete id st /\
  (forall id' st', (delete id' st').1 <> Throw TaskNotFound).
Proof.
  intros Hl Hnn kept Hrb.
  rewrite (delete_array id st l) by done. fold kept. simpl.
  pose proof (getAllTasks_saveTasks _ st Hrb) as Hsaved.
  split; [done|]. split; [|split; [|apply delete_never_not_found]].
  - intros Habsent. assert (kept = l) as Hkept by by apply filter_absent.
    destruct (setItem_accepts _); rewrite Hsaved; [|done].
    by rewrite Hl, Hkept.
  - destruct (setItem_accepts (JSON_stringify (VArr kept))) eqn:Hok.
    + rewrite (delete_array id _ kept);
        [|done|by apply filter_keeps_non_null].
      rewrite filter_absent by apply filter_removed. fold kept.
      by rewrite !saveTasks_accepted by done.
    + rewrite Hsaved. rewrite (delete_array id st l) by done. fold kept.
      by rewrite Hsaved.
Qed.

(** *** Ids *)

Lemma generated_cons call calls :
  generated (call :: calls) = generated [call] ++ generated calls.
Proof. unfold generated. simpl. by destruct call. Qed.

Lemma run_cons call calls st : run (call :: calls) st = run calls (run [call] st).
Proof. by destruct call. Qed.

(** A call leaves the slot as it found it when the storage refuses what
    the call would write. *)
Lemma refused_write_keeps_slot call st :
  (forall blob, setItem_accepts blob = false) -> run [call] st = st.
Proof.
  intros Hfull.
  assert (forall v, saveTasks v st = st) as Hkept
    by (intros v; apply saveTasks_refused, Hfull).
  destruct call as [data e|id u e|id]; simpl.
  - unfold create. by destruct (iterate _); simpl; rewrite ?Hkept.
  - unfold update.
    by destruct (let* l := as_array _ in _) as [[l [i|]]|]; simpl; rewrite ?Hkept.
  - unfold delete.
    by destruct (let* l := as_array _ in _); simpl; rewrite ?Hkept.
Qed.

Section Runs.

(** The platform reads back every collection of tasks. *)
Hypothesis tasks_read_back : forall ts, reads_back (tasks_value ts).

Lemma saved_or_kept ts ts' st :
  getAllTasks st = tasks_value ts ->
  getAllTasks (saveTasks (tasks_value ts') st) = tasks_value ts' \/
  getAllTasks (saveTasks (tasks_value ts') st) = tasks_value ts.
Proof.
  intros Hl. pose proof (getAllTasks_saveTasks _ st (tasks_read_back ts')) as H.
  destruct (setItem_accepts _); [by left|]. right. by rewrite H.
Qed.

(** One call takes a collection of tasks to a collection of tasks, whose
    ids are among the ids before and the id the call generates. *)
Lemma run_step call st ts :
  getAllTasks st = tasks_value ts ->
  exists ts',
    getAllTasks (run [call] st) = tasks_value ts' /\
    ids ts' `sublist_of` ids ts ++ generated [call].
Proof.
  intros Hl. destruct call as [data e|id u e|id]; simpl.
  - rewrite (create_array data e st (task_value <$> ts)) by done.
    cbn [snd]. rewrite <- tasks_value_snoc.
    destruct (saved_or_kept ts (ts ++ [created data e]) st Hl) as [-> | ->].
    + eexists. split; [done|]. by rewrite fmap_app.
    + eexists. split; [done|]. by apply sublist_inserts_r.
  - rewrite app_nil_r.
    destruct (first_with_id id ts) as [Habsent|(i & t & Hi & <- & Hbefore)].
    + exists ts. split; [|done]. unfold update. rewrite Hl. simpl.
      by rewrite array_findIndex_absent by by apply tasks_without_id.
    + rewrite (update_typed ts i t u)
        by (done || apply patch_of_update_props). simpl.
      destruct (saved_or_kept ts (<[i := patched t u (dayjs_now e)]> ts) st Hl)
        as [-> | ->]; eexists; (split; [done|]); [|done].
      rewrite list_fmap_insert. simpl.
      rewrite list_insert_id; [done|]. by rewrite list_lookup_fmap, Hi.
  - rewrite app_nil_r.
    rewrite (delete_array id st (task_value <$> ts));
      [|done|apply tasks_not_null].
    rewrite filter_tasks. simpl.
    fold (tasks_value (List.filter (fun t => negb (String.eqb (task_id t) id)) ts)).
    destruct (saved_or_kept ts
                (List.filter (fun t => negb (String.eqb (task_id t) id)) ts)
                st Hl) as [-> | ->]; eexists; (split; [done|]); [|done].
    apply ids_filter_sublist.
Qed.

Lemma run_ids_distinct calls st ts :
  getAllTasks st = tasks_value ts ->
  NoDup (ids ts ++ generated calls) ->
  exists ts', getAllTasks (run calls st) = tasks_value ts' /\ NoDup (ids ts').
Proof.
  revert st ts. induction calls as [|call calls IH]; intros st ts Hl Hnodup.
  - exists ts. split; [done|]. by rewrite app_nil_r in Hnodup.
  - rewrite run_cons. destruct (run_step call st ts Hl) as (ts1 & Hl1 & Hsub).
    apply (IH _ ts1 Hl1). eapply sublist_NoDup; [exact Hnodup|].
    rewrite generated_cons, app_assoc. by apply sublist_app.
Qed.

Lemma create_all_typed creates st ts :
  getAllTasks st = tasks_value ts ->
  (create_all creates st).1
  = (fun c => Normal (task_value (created c.1 c.2))) <$> creates.
Proof.
  revert st ts. induction creates as [|[data e] rest IH]; intros st ts Hl; [done|].
  destruct (run_step (Create data e) st ts Hl) as (ts1 & Hl1 & _).
  cbn [run create_all] in *.
  rewrite (create_array data e st (task_value <$> ts)) in * by done.
  cbn [snd] in Hl1. specialize (IH _ _ Hl1).
  destruct (create_all rest _) as [outcomes st'']. simpl in *. by rewrite IH.
Qed.

End Runs.

(** C8, as the code has it.  Nothing compares a generated id with the
    stored ones; ids stay distinct as long as the generated ones are new.
    On a platform that reads back what it writes, start from a collection
    of tasks with distinct ids and make any calls of [create], [update]
    (with a typed patch) and [delete] whose generated ids differ from one
    another and from the stored ones: the collection in the slot at the
    end is a collection of tasks with distinct ids.  And calls of [create]
    in a row return tasks whose ids are the generated ones, in order. *)
Theorem ids_stay_distinct
    (ts : list Task) (st : Storage) (calls : list operation)
    (creates : list (CreateTaskRequest * Env)) :
  (forall ts, reads_back (tasks_value ts)) ->
  getAllTasks st = tasks_value ts ->
  NoDup (ids ts ++ generated calls) ->
  (exists ts',
     getAllTasks (run calls st) = tasks_value ts' /\ NoDup (ids ts')) /\
  (create_all creates st).1
  = (fun c => Normal (task_value (created c.1 c.2))) <$> creates /\
  Forall (fun c => task_id (created c.1 c.2) = generateId c.2) creates.
Proof.
  intros Hcodec Hl Hnodup. split; [by eapply run_ids_distinct|].
  split; [by eapply create_all_typed|]. by apply Forall_true.
Qed.

End Properties.

(** ** The service on the reference platform *)

Section OnReference.

Local Abbreviation getAllTasks := (getAllTasks Reference.parse).
Local Abbreviation getAll := (getAll Reference.parse).
Local Abbreviation getById := (getById Reference.parse).
Local Abbreviation create := (create Reference.parse Reference.stringify).
Local Abbreviation update := (update Reference.parse Reference.stringify).
Local Abbreviation delete := (delete Reference.parse Reference.stringify).
Local Abbreviation create_all :=
  (create_all Reference.parse Reference.stringify).
Local Abbreviation reads_back :=
  (reads_back Reference.parse Reference.stringify).

(** The corrupt slot of the specification: a text that is not JSON. *)
Lemma getAll_never_fails_witness :
  Reference.parse "not json" = None /\
  getAll (Some "not json") = (Normal (VArr []), Some "not json").
Proof.
  split; [vm_compute; reflexivity|].
  apply (getAll_never_fails Reference.parse (Some "not json")) with "not json";
    [reflexivity | vm_compute; reflexivity].
Defined.

Lemma save_then_load_witness :
  getAllTasks (saveTasks Reference.stringify Sample.roomy
                 (tasks_value [Sample.milk]) None)
  = tasks_value [Sample.milk].
Proof.
  apply (save_then_load Reference.parse Reference.stringify Sample.roomy
           [Sample.milk] None).
  - split; [done | vm_compute; reflexivity].
  - vm_compute. reflexivity.
Defined.

(** A slot that holds the JSON number 5. *)
Lemma parsed_value_as_is_witness :
  getAllTasks (Some "5") = VNum 5 /\
  getAll (Some "5") = (Normal (VNum 5), Some "5").
Proof.
  apply (parsed_value_as_is Reference.parse "5" (VNum 5));
    [done | vm_compute; reflexivity].
Defined.

Lemma missing_id_not_found_witness :
  update Sample.roomy "does-not-exist" (update_props Sample.high_priority)
    Sample.env (Sample.stored [Sample.milk])
  = (Throw TaskNotFound, Sample.stored [Sample.milk]) /\
  getById "does-not-exist" (Sample.stored [Sample.milk])
  = (Throw TaskNotFound, Sample.stored [Sample.milk]).
Proof.
  apply (missing_id_not_found Reference.parse Reference.stringify Sample.roomy
           "does-not-exist" _ Sample.env _ [task_value Sample.milk]).
  - vm_compute. reflexivity.
  - repeat constructor; done.
  - repeat constructor.
Defined.

(** C2, as the specification states it, fails: no element of the stored
    collection has the id, and [update] and [getById] throw a [TypeError],
    not [Task not found].  The slot holds an array with a [null] element,
    a JSON object, or a JSON number. *)
Lemma missing_id_type_error :
  getAllTasks (Some "[null]") = VArr [VNull] /\
  Forall (fun t => has_id "does-not-exist" t = false) [VNull] /\
  update Sample.roomy "does-not-exist" (update_props Sample.high_priority)
    Sample.env (Some "[null]")
  = (Throw TypeError, Some "[null]") /\
  getById "does-not-exist" (Some "[null]") = (Throw TypeError, Some "[null]") /\
  update Sample.roomy "does-not-exist" (update_props Sample.high_priority)
    Sample.env (Some "{}")
  = (Throw TypeError, Some "{}") /\
  getById "does-not-exist" (Some "{}") = (Throw TypeError, Some "{}") /\
  update Sample.roomy "does-not-exist" (update_props Sample.high_priority)
    Sample.env (Some "5")
  = (Throw TypeError, Some "5") /\
  getById "does-not-exist" (Some "5") = (Throw TypeError, Some "5").
Proof.
  split; [vm_compute; reflexivity|]. split; [by repeat constructor|].
  repeat split; vm_compute; reflexivity.
Qed.

(** C1, as the specification states it, fails: a patch object that
    carries [id] and [createdAt] overwrites both, in the task returned and
    in the slot. *)
Lemma update_forged_identity :
  update Sample.roomy "abc" Sample.forged Sample.env
    (Sample.stored [Sample.milk])
  = (Normal (task_value Sample.milk_forged), Sample.stored [Sample.milk_forged]) /\
  task_id Sample.milk_forged <> task_id Sample.milk /\
  task_createdAt Sample.milk_forged <> task_createdAt Sample.milk.
Proof. split; [vm_compute; reflexivity|]. split; discriminate. Qed.

Lemma update_keeps_identity_witness :
  exists props',
    update Sample.roomy "abc" (update_props Sample.high_priority) Sample.env
      (Sample.stored [Sample.milk])
    = (Normal (VObj props'),
       saveTasks Reference.stringify Sample.roomy
         (VArr (<[0%nat := VObj props']> [task_value Sample.milk]))
         (Sample.stored [Sample.milk])) /\
    own_prop "id" props' = Some (VStr "abc") /\
    own_prop "createdAt" props' = Some (VStr "2024-05-01T10:00:00.000Z").
Proof.
  destruct (update_keeps_identity Reference.parse Reference.stringify
              Sample.roomy "abc" (update_props Sample.high_priority)
              Sample.env (Sample.stored [Sample.milk])
              [task_value Sample.milk] 0%nat (task_props Sample.milk))
    as (props' & Hupdate & Hid & Hcreated & _);
    [vm_compute; reflexivity | constructor | reflexivity..|].
  exists props'. by rewrite Hupdate, Hid, Hcreated.
Defined.

(** C3, as the specification states it, fails: when the storage refuses
    the write, [create] returns the new task and the slot stays without
    it. *)
Lemma create_not_persisted :
  create Sample.full Sample.request Sample.env None
  = (Normal (task_value (created Sample.request Sample.env)), None) /\
  getAll None = (Normal (VArr []), None).
Proof. split; vm_compute; reflexivity. Qed.

(** And when the slot holds JSON that is not an array, the spread in
    [create] throws. *)
Example create_on_number :
  create Sample.roomy Sample.request Sample.env (Some "5")
  = (Throw TypeError, Some "5").
Proof. vm_compute. reflexivity. Qed.

Lemma create_appends_witness :
  create Sample.roomy Sample.request Sample.env (Sample.stored [Sample.milk])
  = (Normal (task_value (created Sample.request Sample.env)),
     Sample.stored [Sample.milk; created Sample.request Sample.env]) /\
  task_status (created Sample.request Sample.env) = pending.
Proof.
  destruct (create_appends Reference.parse Reference.stringify Sample.roomy
              Sample.request Sample.env (Sample.stored [Sample.milk])
              [task_value Sample.milk])
    as (Hcreate & (Hstatus & _) & _); [vm_compute; reflexivity|].
  split; [|exact Hstatus]. rewrite Hcreate. vm_compute. reflexivity.
Defined.

(** C4, as the specification states it, fails: the clock was set back, and
    [updatedAt] after the update is earlier than before it. *)
Lemma update_clock_set_back :
  update Sample.roomy "abc" (update_props Sample.high_priority) Sample.env_back
    (Sample.stored [Sample.milk])
  = (Normal (task_value (patched Sample.milk Sample.high_priority
                           "2024-04-30T09:00:00.000Z")),
     Sample.stored [patched Sample.milk Sample.high_priority
                      "2024-04-30T09:00:00.000Z"]) /\
  String.ltb (task_updatedAt Sample.milk) "2024-04-30T09:00:00.000Z" = false.
Proof. split; vm_compute; reflexivity. Qed.

Lemma patch_of_oat_milk : patch_of Sample.oat_milk Sample.oat_milk_object.
Proof.
  split; [apply (bool_decide_unpack _); vm_compute; exact I|].
  intros k. simpl.
  destruct (String.eqb k "priority") eqn:E1, (String.eqb k "title") eqn:E2;
    try reflexivity.
  apply String.eqb_eq in E1, E2. congruence.
Qed.

Lemma update_merges_witness :
  update Sample.roomy "abc" Sample.oat_milk_object Sample.env
    (Sample.stored [Sample.milk])
  = (Normal (task_value (patched Sample.milk Sample.oat_milk
                           "2024-06-01T00:00:00.000Z")),
     Sample.stored [patched Sample.milk Sample.oat_milk
                      "2024-06-01T00:00:00.000Z"]).
Proof.
  destruct (update_merges Reference.parse Reference.stringify Sample.roomy
              [Sample.milk] 0%nat Sample.milk Sample.oat_milk
              Sample.oat_milk_object Sample.env (Sample.stored [Sample.milk]))
    as (Hupdate & _);
    [apply patch_of_oat_milk | vm_compute; reflexivity | constructor
    | reflexivity |].
  etransitivity; [exact Hupdate|]. vm_compute. reflexivity.
Defined.

(** C5, as the specification states it, fails: on a slot that holds a
    JSON object, [delete] throws. *)
Lemma delete_on_object :
  getAllTasks (Some "{}") = VObj [] /\
  delete Sample.roomy "abc" (Some "{}") = (Throw TypeError, Some "{}").
Proof. split; vm_compute; reflexivity. Qed.

Lemma delete_idempotent_witness :
  delete Sample.roomy "abc" (Sample.stored [Sample.milk])
  = (Normal tt, Sample.stored []) /\
  delete Sample.roomy "abc" (Sample.stored []) = (Normal tt, Sample.stored []).
Proof.
  destruct (delete_idempotent Reference.parse Reference.stringify Sample.roomy
              "abc" (Sample.stored [Sample.milk]) [task_value Sample.milk])
    as (Hdelete & _ & Hagain & _);
    [vm_compute; reflexivity | repeat constructor; done
    | split; [done | vm_compute; reflexivity] |].
  rewrite Hdelete in Hagain. split; [|exact Hagain].
  rewrite Hdelete. vm_compute. reflexivity.
Defined.

(** C8, as the specification states it, fails: two calls of [create] that
    read the same clock and the same random number give the same id, and
    both tasks are stored. *)
Lemma create_twice_same_id :
  create_all Sample.roomy
    [(Sample.request, Sample.env); (Sample.request, Sample.env)] None
  = ([Normal (task_value (created Sample.request Sample.env));
      Normal (task_value (created Sample.request Sample.env))],
     Sample.stored [created Sample.request Sample.env;
                    created Sample.request Sample.env]) /\
  ~ NoDup (task_id <$> [created Sample.request Sample.env;
                        created Sample.request Sample.env]).
Proof.
  split; [vm_compute; reflexivity|].
  intros [Hnotin _]%NoDup_cons. apply Hnotin. by left.
Qed.

Lemma reads_back_tasks ts : reads_back (tasks_value ts).
Proof. split; [done|]. apply parse_stringify_tasks. Qed.

(** On the reference platform the round trip needs no more than an
    accepted write. *)
Lemma save_then_load_reference (quota : N) (T : list Task) (st : Storage) :
  Reference.accepts quota (Reference.stringify (tasks_value T)) = true ->
  getAllTasks (saveTasks Reference.stringify (Reference.accepts quota)
                 (tasks_value T) st)
  = tasks_value T.
Proof.
  intros Hok.
  pose proof (getAllTasks_saveTasks Reference.parse Reference.stringify
                (Reference.accepts quota) _ st (reads_back_tasks T)) as H.
  by rewrite Hok in H.
Qed.

Lemma ids_stay_distinct_witness :
  exists ts',
    getAllTasks
      (run Reference.parse Reference.stringify Sample.roomy
         [Create Sample.request Sample.env;
          Update "abc" Sample.high_priority Sample.env;
          Delete "abc"]
         (Sample.stored [Sample.milk]))
    = tasks_value ts' /\
    NoDup (task_id <$> ts').
Proof.
  apply (ids_stay_distinct Reference.parse Reference.stringify Sample.roomy
           [Sample.milk] (Sample.stored [Sample.milk])
           [Create Sample.request Sample.env;
            Update "abc" Sample.high_priority Sample.env;
            Delete "abc"] []).
  - apply reads_back_tasks.
  - vm_compute. reflexivity.
  - vm_compute. apply (bool_decide_unpack _). vm_compute. exact I.
Defined.

End OnReference.

(** ** More properties of the value operations *)

(** [find] returns the first element that has the id. *)
Lemma array_find_Some id l t :
  array_find (id_is id) l = Normal (Some t) ->
  exists i,
    l !! i = Some t /\ has_id id t = true /\
    Forall (fun t' => id_is id t' = Normal false) (take i l).
Proof.
  induction l as [|t' l IH]; simpl; [done|].
  destruct (id_is id t') as [[]|] eqn:Et; simpl; [| |done].
  - intros [= <-]. exists 0%nat. apply id_is_Normal in Et as [_ Ht]. by repeat split.
  - intros (i & Hi & Ht & Hbefore)%IH. exists (S i). repeat split; [done..|].
    simpl. by constructor.
Qed.

Lemma array_find_first id l i t :
  Forall (fun t' => id_is id t' = Normal false) (take i l) ->
  l !! i = Some t ->
  has_id id t = true ->
  array_find (id_is id) l = Normal (Some t).
Proof.
  revert i. induction l as [|t' l IH]; intros [|i] Hbefore Hi Ht; try done.
  - simpl in Hi. injection Hi as ->. simpl.
    rewrite id_is_has_id, Ht; [done|]. by destruct t.
  - simpl in *. apply Forall_cons in Hbefore as [-> Hbefore]. simpl.
    by apply (IH i).
Qed.

Lemma array_findIndex_before id l i :
  array_findIndex (id_is id) l = Normal (Some i) ->
  Forall (fun t => id_is id t = Normal false) (take i l).
Proof.
  revert i. induction l as [|t l IH]; intros i; simpl; [done|].
  destruct (id_is id t) as [[]|] eqn:Et; simpl; [| |done].
  - by intros [= <-].
  - destruct (array_findIndex (id_is id) l) as [[j|]|] eqn:Ej; simpl; [|done..].
    intros [= <-]. simpl. constructor; [done|]. by apply IH.
Qed.


(** ** More properties of the service *)

Section ServiceProperties.

Variable JSON_parse : string -> option value.
Variable JSON_stringify : value -> string.
Variable setItem_accepts : string -> bool.

Local Abbreviation getAllTasks := (getAllTasks JSON_parse).
Local Abbreviation saveTasks := (saveTasks JSON_stringify setItem_accepts).
Local Abbreviation reads_back := (reads_back JSON_parse JSON_stringify).
Local Abbreviation getAll := (getAll JSON_parse).
Local Abbreviation getById := (getById JSON_parse).
Local Abbreviation create := (create JSON_parse JSON_stringify setItem_accepts).
Local Abbreviation update := (update JSON_parse JSON_stringify setItem_accepts).
Local Abbreviation delete := (delete JSON_parse JSON_stringify setItem_accepts).
Local Abbreviation run := (run JSON_parse JSON_stringify setItem_accepts).

(** The collection after an accepted write that the platform reads back. *)
Lemma getAllTasks_after_save v st :
  setItem_accepts (JSON_stringify v) = true -> reads_back v ->
  getAllTasks (saveTasks v st) = v.
Proof.
  intros Hok Hrb.
  pose proof (getAllTasks_saveTasks JSON_parse JSON_stringify setItem_accepts
                v st Hrb) as H.
  by rewrite Hok in H.
Qed.

Lemma getById_found id st l i t :
  getAllTasks st = VArr l ->
  Forall (fun t' => id_is id t' = Normal false) (take i l) ->
  l !! i = Some t ->
  has_id id t = true ->
  getById id st = (Normal t, st).
Proof.
  intros Hl Hbefore Hi Ht. unfold getById. rewrite Hl. simpl.
  rewrite (array_find_first id l i t) by done. simpl.
  by apply has_id_true in Ht as (props & -> & _).
Qed.

(** X1.  Whatever the slot holds, a task that [getById] returns is an
    object whose [id] is the id asked for: the first such element of the
    stored array.  The slot is as before. *)
Theorem getById_sound (id : string) (st st' : Storage) (v : value) :
  getById id st = (Normal v, st') ->
  st' = st /\
  exists l i props,
    getAllTasks st = VArr l /\ l !! i = Some v /\ v = VObj props /\
    own_prop "id" props = Some (VStr id) /\
    Forall (fun t => id_is id t = Normal false) (take i l).
Proof.
  unfold getById. intros [= Hv <-]. split; [done|].
  destruct (getAllTasks st) as [| | | |l|]; try done. simpl in Hv.
  destruct (array_find (id_is id) l) as [[t|]|] eqn:Hfind; simpl in Hv; try done.
  apply array_find_Some in Hfind as (i & Hi & Ht & Hbefore).
  apply has_id_true in Ht as (props & -> & Hid). simpl in Hv.
  injection Hv as <-. by exists l, i, props.
Qed.

(** X2.  Whatever the slot holds and whatever the patch names, a task
    that [update] returns has the reading of the clock as [updatedAt]; and
    when the keys of the patch are distinct, each other key has the value
    of the patch if the patch names it, else the value of the stored
    task. *)
Theorem update_result_fields
    (id : string) (data : list (string * value)) (e : Env)
    (st st' : Storage) (v : value) :
  update id data e st = (Normal v, st') ->
  exists l i stored props,
    getAllTasks st = VArr l /\ l !! i = Some (VObj stored) /\
    own_prop "id" stored = Some (VStr id) /\
    v = VObj props /\
    own_prop "updatedAt" props = Some (VStr (dayjs_now e)) /\
    (NoDup data.*1 ->
     forall k, k <> "updatedAt" ->
       own_prop k props = match own_prop k data with
                          | Some x => Some x
                          | None => own_prop k stored
                          end).
Proof.
  unfold update. destruct (getAllTasks st) as [| | | |l|] eqn:Hl; try done. simpl.
  destruct (array_findIndex (id_is id) l) as [[i|]|] eqn:Hi; simpl; try done.
  intros [= <- <-].
  apply array_findIndex_Some in Hi as (stored & Hi & Hid).
  rewrite Hi. cbn [spread_source].
  exists l, i, stored. eexists. repeat split; [done..| |].
  - apply own_prop_set_prop_eq.
  - intros Hnodup k Hk. rewrite own_prop_set_prop_ne by done.
    by apply own_prop_spread_into.
Qed.

(** X3.  [update] writes a collection of the same length in which only
    the element it found differs: every other element keeps its place. *)
Theorem update_frame
    (id : string) (data : list (string * value)) (e : Env)
    (st st' : Storage) (l : list value) (v : value) :
  getAllTasks st = VArr l ->
  update id data e st = (Normal v, st') ->
  exists i l',
    st' = saveTasks (VArr l') st /\
    Forall (fun t => id_is id t = Normal false) (take i l) /\
    l' !! i = Some v /\
    length l' = length l /\
    forall j, j <> i -> l' !! j = l !! j.
Proof.
  intros Hl. unfold update. rewrite Hl. simpl.
  destruct (array_findIndex (id_is id) l) as [[i|]|] eqn:Hi; simpl; try done.
  intros [= <- <-]. eexists i, _. split; [done|].
  pose proof (array_findIndex_before _ _ _ Hi) as Hbefore.
  apply array_findIndex_Some in Hi as (stored & Hi & _).
  repeat split; [done| |apply length_insert|].
  - apply list_lookup_insert_eq. by eapply lookup_lt_Some.
  - intros j Hj. by apply list_lookup_insert_ne.
Qed.

(** X4.  After a [create] on a slot that is absent, unparsable or holds
    an array without [null] elements, whose write is accepted, [getById]
    with the generated id returns the created task, when no stored
    element had that id. *)
Theorem create_then_getById
    (data : CreateTaskRequest) (e : Env) (st : Storage) (l : list value) :
  getAllTasks st = VArr l ->
  Forall (fun t => t <> VNull) l ->
  Forall (fun t => has_id (generateId e) t = false) l ->
  setItem_accepts (JSON_stringify (VArr (l ++ [task_value (created data e)])))
  = true ->
  reads_back (VArr (l ++ [task_value (created data e)])) ->
  getById (generateId e) (create data e st).2
  = (Normal (task_value (created data e)), (create data e st).2).
Proof.
  intros Hl Hnn Hfresh Hok Hrb.
  rewrite (create_array JSON_parse JSON_stringify setItem_accepts data e st l)
    by done.
  cbn [snd]. eapply getById_found.
  - by apply getAllTasks_after_save.
  - rewrite take_app_length. by apply id_is_absent.
  - by rewrite lookup_app_r, Nat.sub_diag.
  - simpl. apply String.eqb_refl.
Qed.

(** X5.  After a [delete] whose write is accepted, the id is gone:
    [getAll] gives the stored array without the elements that had the id,
    and [getById] and [update] with the id throw [Task not found]. *)
Theorem delete_then_gone
    (id : string) (data : list (string * value)) (e : Env)
    (st : Storage) (l : list value) :
  getAllTasks st = VArr l ->
  Forall (fun t => t <> VNull) l ->
  let kept := List.filter (fun t => negb (has_id id t)) l in
  setItem_accepts (JSON_stringify (VArr kept)) = true ->
  reads_back (VArr kept) ->
  let st' := (delete id st).2 in
  getAll st' = (Normal (VArr kept), st') /\
  Forall (fun t => has_id id t = false) kept /\
  getById id st' = (Throw TaskNotFound, st') /\
  update id data e st' = (Throw TaskNotFound, st').
Proof.
  intros Hl Hnn kept Hok Hrb st'.
  assert (getAllTasks st' = VArr kept) as Hl'.
  { unfold st'.
    rewrite (delete_array JSON_parse JSON_stringify setItem_accepts id st l)
      by done.
    by apply getAllTasks_after_save. }
  assert (Forall (fun t => id_is id t = Normal false) kept) as Habsent.
  { pose proof (filter_removed id l) as Hrem.
    pose proof (filter_keeps_non_null (fun t => negb (has_id id t)) l Hnn) as Hk.
    fold kept in Hrem, Hk. rewrite Forall_forall in *. intros t Ht.
    rewrite id_is_has_id by by apply Hk. by rewrite Hrem. }
  split; [by unfold getAll; rewrite Hl'|]. split; [apply filter_removed|].
  unfold getById, update. rewrite Hl'. simpl.
  by rewrite array_find_absent, array_findIndex_absent.
Qed.


(** X7.  After an [update] of a stored task with a patch object of type
    [UpdateTaskRequest] whose write is accepted, [getById] with the id
    returns the merged task. *)
Theorem update_then_getById
    (ts : list Task) (i : nat) (t : Task) (u : UpdateTaskRequest)
    (data : list (string * value)) (e : Env) (st : Storage) :
  patch_of u data ->
  getAllTasks st = tasks_value ts ->
  Forall (fun t' => task_id t' <> task_id t) (take i ts) ->
  ts !! i = Some t ->
  let t' := patched t u (dayjs_now e) in
  setItem_accepts (JSON_stringify (tasks_value (<[i := t']> ts))) = true ->
  reads_back (tasks_value (<[i := t']> ts)) ->
  getById (task_id t) (update (task_id t) data e st).2
  = (Normal (task_value t'), (update (task_id t) data e st).2).
Proof.
  intros Hdata Hl Hbefore Hi t' Hok Hrb.
  rewrite (update_typed JSON_parse JSON_stringify setItem_accepts ts i t u)
    by done.
  cbn [snd]. eapply (getById_found _ _ _ i).
  - by apply getAllTasks_after_save.
  - rewrite <- fmap_take, take_insert_ge by done. by apply tasks_without_id.
  - rewrite list_lookup_fmap, list_lookup_insert_eq; [done|].
    by eapply lookup_lt_Some.
  - rewrite has_id_task. apply String.eqb_refl.
Qed.

(** X8.  A slot whose text does not parse is lost at the first accepted
    write: after [create] the slot holds the new task alone, after
    [delete] the empty array. *)
Theorem corrupt_slot_overwritten
    (stored id : string) (data : CreateTaskRequest) (e : Env) :
  JSON_parse stored = None ->
  setItem_accepts (JSON_stringify (VArr [task_value (created data e)])) = true ->
  setItem_accepts (JSON_stringify (VArr [])) = true ->
  create data e (Some stored)
  = (Normal (task_value (created data e)),
     Some (JSON_stringify (VArr [task_value (created data e)]))) /\
  delete id (Some stored) = (Normal tt, Some (JSON_stringify (VArr []))).
Proof.
  intros Hbad Hok1 Hok2.
  pose proof (getAllTasks_unparsable JSON_parse stored Hbad) as Hl.
  split.
  - rewrite (create_array JSON_parse JSON_stringify setItem_accepts data e _ [])
      by done.
    unfold saveTasks. by rewrite app_nil_l, Hok1.
  - rewrite (delete_array JSON_parse JSON_stringify setItem_accepts id _ [])
      by done.
    unfold saveTasks. cbn [List.filter]. by rewrite Hok2.
Qed.

(** X9.  Writes are best effort: while the storage refuses every write,
    no sequence of calls changes the slot, and [create] still returns its
    task. *)
Theorem refused_writes_are_silent
    (calls : list operation) (data : CreateTaskRequest) (e : Env)
    (st : Storage) (l : list value) :
  (forall blob, setItem_accepts blob = false) ->
  getAllTasks st = VArr l ->
  run calls st = st /\
  create data e st = (Normal (task_value (created data e)), st).
Proof.
  intros Hfull Hl. split.
  - induction calls as [|call calls IH]; [done|].
    rewrite run_cons.
    by rewrite (refused_write_keeps_slot JSON_parse JSON_stringify
                  setItem_accepts call st Hfull).
  - rewrite (create_array JSON_parse JSON_stringify setItem_accepts data e st l)
      by done.
    by rewrite saveTasks_refused by apply Hfull.
Qed.

End ServiceProperties.

(** ** Properties of the hooks, the page and the table *)

Lemma with_status_with_status s1 s2 now1 now2 t :
  with_status s2 now2 (with_status s1 now1 t) = with_status s2 now2 t.
Proof. done. Qed.

Lemma toggled_status s : toggled (status_string s) = status_string (other_status s).
Proof. by destruct s. Qed.

Lemma patched_status t s now :
  patched t (status_patch s) now = with_status s now t.
Proof. done. Qed.

Lemma patch_of_form values : patch_of (form_patch values) (form_props values).
Proof. split; [|done]. simpl. apply (bool_decide_unpack _). vm_compute. exact I. Qed.

Lemma patched_form_unchanged t now :
  patched t (form_patch (formatTaskFormData t)) now
  = with_status (task_status t) now t.
Proof. done. Qed.

Lemma status_is_has_status s t :
  t <> VNull -> status_is s t = Normal (has_status s t).
Proof. by destruct t. Qed.

(** A filter on the status that returns has met no [null], and is the
    list filter. *)
Lemma array_filter_Normal (f : value -> completion bool) (g : value -> bool) l r :
  (forall t b, f t = Normal b -> t <> VNull /\ g t = b) ->
  array_filter f l = Normal r ->
  Forall (fun t => t <> VNull) l /\ r = List.filter g l.
Proof.
  intros Hf. revert r. induction l as [|t l IH]; intros r; simpl.
  - by intros [= <-].
  - destruct (f t) as [b|] eqn:Et; simpl; [|done].
    destruct (array_filter f l) as [kept|]; simpl; [|done].
    intros [= <-]. destruct (IH kept eq_refl) as [Hnn ->].
    apply Hf in Et as [Ht <-]. split; [by constructor|done].
Qed.

Lemma status_is_Normal s t b :
  status_is s t = Normal b -> t <> VNull /\ has_status s t = b.
Proof. destruct t; simpl; intros [= <-] || intros [=]; done. Qed.

Lemma has_status_exclusive t :
  has_status "completed" t && has_status "pending" t = false.
Proof.
  destruct t as [| | | | |props]; try done. simpl.
  destruct (own_prop "status" props) as [[| | |s| |]|]; try done.
  destruct (String.eqb s "completed") eqn:E; [|done].
  by apply String.eqb_eq in E as ->.
Qed.

Lemma filter_length_le {A : Type} (f : A -> bool) (l : list A) :
  (length (List.filter f l) <= length l)%nat.
Proof. induction l as [|x l IH]; simpl; [done|]. destruct (f x); simpl; lia. Qed.

Lemma filter_length_disjoint {A : Type} (f g : A -> bool) (l : list A) :
  (forall x, f x && g x = false) ->
  (length (List.filter f l) + length (List.filter g l) <= length l)%nat.
Proof.
  intros H. induction l as [|x l IH]; simpl; [done|].
  specialize (H x). destruct (f x), (g x); simpl in *; try done; lia.
Qed.

Lemma filter_length_cover {A : Type} (f g : A -> bool) (l : list A) :
  (forall x, f x = negb (g x)) ->
  (length (List.filter f l) + length (List.filter g l) = length l)%nat.
Proof.
  intros H. induction l as [|x l IH]; simpl; [done|].
  rewrite (H x). destruct (g x); simpl; lia.
Qed.

Lemma filter_length_and {A : Type} (f g : A -> bool) (l : list A) :
  (length (List.filter (fun x => f x && g x) l) <= length (List.filter f l))%nat.
Proof.
  induction l as [|x l IH]; simpl; [done|]. destruct (f x), (g x); simpl; lia.
Qed.

Section InterfaceProperties.

Variable JSON_parse : string -> option value.
Variable JSON_stringify : value -> string.
Variable setItem_accepts : string -> bool.
Variable Date_time : option value -> option Z.
Variable dayjs_time : option value -> option Z.
Variable endOf_day : Z -> Z.

Local Abbreviation getAllTasks := (getAllTasks JSON_parse).
Local Abbreviation saveTasks := (saveTasks JSON_stringify setItem_accepts).
Local Abbreviation reads_back := (reads_back JSON_parse JSON_stringify).
Local Abbreviation create := (create JSON_parse JSON_stringify setItem_accepts).
Local Abbreviation update := (update JSON_parse JSON_stringify setItem_accepts).
Local Abbreviation delete := (delete JSON_parse JSON_stringify setItem_accepts).
Local Abbreviation createItem :=
  (createItem JSON_parse JSON_stringify setItem_accepts).
Local Abbreviation updateItem :=
  (updateItem JSON_parse JSON_stringify setItem_accepts).
Local Abbreviation deleteItem :=
  (deleteItem JSON_parse JSON_stringify setItem_accepts).
Local Abbreviation toggleComplete :=
  (toggleComplete JSON_parse JSON_stringify setItem_accepts).
Local Abbreviation fetchData := (fetchData JSON_parse).
Local Abbreviation refetch := (refetch JSON_parse).
Local Abbreviation handleSubmit :=
  (handleSubmit JSON_parse JSON_stringify setItem_accepts).
Local Abbreviation handleDelete :=
  (handleDelete JSON_parse JSON_stringify setItem_accepts).
Local Abbreviation handleToggleComplete :=
  (handleToggleComplete JSON_parse JSON_stringify setItem_accepts).
Local Abbreviation form_handleSubmit :=
  (form_handleSubmit JSON_parse JSON_stringify setItem_accepts).
Local Abbreviation statistics := (statistics Date_time).
Local Abbreviation overdue_at := (overdue_at Date_time).
Local Abbreviation isOverdue := (isOverdue dayjs_time endOf_day).

(** The page after an operation of [useTaskOperations] that showed [n]. *)
Local Abbreviation operated n p :=
  (mkPage (data p) (loading p) (error p) false (notices p ++ [n])
          (isModalOpen p) (selectedTask p) (form_resets p)).

(** X11.  Whatever the slot holds, an operation of [useTaskOperations]
    ends as the call of the service it wraps (the same outcome, an
    exception thrown on, and the same slot), with [loading] off and one
    more notice: of success when the call returned, of failure when it
    threw.  It touches nothing else of the page. *)
Theorem operations_report
    (data : CreateTaskRequest) (id : string) (patch : list (string * value))
    (e : Env) (st : Storage) (p : Page) :
  createItem data e st p
  = ((create data e st).1, (create data e st).2,
     operated (shown "Task created successfully!" "Failed to create task"
                 (create data e st).1) p) /\
  updateItem id patch e st p
  = ((update id patch e st).1, (update id patch e st).2,
     operated (shown "Task updated successfully!" "Failed to update task"
                 (update id patch e st).1) p) /\
  deleteItem id st p
  = ((delete id st).1, (delete id st).2,
     operated (shown "Task deleted successfully!" "Failed to delete task"
                 (delete id st).1) p).
Proof.
  unfold createItem, updateItem, deleteItem. repeat split.
  - by destruct (create data e st) as [[] ?].
  - by destruct (update id patch e st) as [[] ?].
  - by destruct (delete id st) as [[[]|] ?].
Qed.

Lemma toggle_typed ts i t s e st p :
  getAllTasks st = tasks_value ts ->
  Forall (fun t' => task_id t' <> task_id t) (take i ts) ->
  ts !! i = Some t ->
  toggleComplete (task_id t) (status_string s) e st p
  = (Normal (task_value (with_status (other_status s) (dayjs_now e) t)),
     saveTasks (tasks_value
                  (<[i := with_status (other_status s) (dayjs_now e) t]> ts)) st,
     operated (message_success "Task updated successfully!") p).
Proof.
  intros Hl Hbefore Hi.
  unfold toggleComplete, toggleComplete, updateItem.
  rewrite toggled_status.
  rewrite (update_typed JSON_parse JSON_stringify setItem_accepts ts i t
             (status_patch (other_status s))); [done| |done..].
  split; [|done]. simpl. apply (bool_decide_unpack _). vm_compute. exact I.
Qed.

(** X12.  [toggleComplete] on a stored task gives it the status that is
    not the one passed in, whatever its stored status is, stamps
    [updatedAt] with the clock and keeps every other field. *)
Theorem toggle_sets_other_status
    (ts : list Task) (i : nat) (t : Task) (s : TaskStatus)
    (e : Env) (st : Storage) (p : Page) :
  getAllTasks st = tasks_value ts ->
  Forall (fun t' => task_id t' <> task_id t) (take i ts) ->
  ts !! i = Some t ->
  let t' := with_status (other_status s) (dayjs_now e) t in
  (toggleComplete (task_id t) (status_string s) e st p).1
  = (Normal (task_value t'), saveTasks (tasks_value (<[i := t']> ts)) st).
Proof. intros Hl Hbefore Hi t'. by rewrite (toggle_typed ts i t s). Qed.

(** X13.  Two toggles of a stored task, each passed the status the task
    has by then, leave it with the status it had; only [updatedAt] has
    moved, to the clock of the second. *)
Theorem toggle_twice_restores
    (ts : list Task) (i : nat) (t : Task) (e1 e2 : Env)
    (st : Storage) (p : Page) :
  getAllTasks st = tasks_value ts ->
  Forall (fun t' => task_id t' <> task_id t) (take i ts) ->
  ts !! i = Some t ->
  let t1 := with_status (other_status (task_status t)) (dayjs_now e1) t in
  setItem_accepts (JSON_stringify (tasks_value (<[i := t1]> ts))) = true ->
  reads_back (tasks_value (<[i := t1]> ts)) ->
  let '(_, st1, p1) :=
    toggleComplete (task_id t) (status_string (task_status t)) e1 st p in
  (toggleComplete (task_id t) (status_string (task_status t1)) e2 st1 p1).1
  = (Normal (task_value (with_status (task_status t) (dayjs_now e2) t)),
     saveTasks (tasks_value
                  (<[i := with_status (task_status t) (dayjs_now e2) t]> ts))
       st1).
Proof.
  intros Hl Hbefore Hi t1 Hok Hrb.
  rewrite (toggle_typed ts i t (task_status t)) by done. fold t1.
  assert (i < length ts)%nat as Hlt by by eapply lookup_lt_Some.
  rewrite (toggle_typed (<[i := t1]> ts) i t1 (task_status t1)).
  - cbn [fst]. rewrite list_insert_insert_eq.
    replace (other_status (task_status t1)) with (task_status t)
      by by destruct (task_status t).
    done.
  - pose proof (getAllTasks_saveTasks JSON_parse JSON_stringify setItem_accepts
                  _ st Hrb) as H.
    by rewrite Hok in H.
  - by rewrite take_insert_ge.
  - by apply list_lookup_insert_eq.
Qed.

(** X14.  Whatever the slot holds, an enabled [fetchData] ends with the
    loaded value as [data], no [error] and [loading] off, and leaves the
    slot alone; a [fetchData] whose [enabled] is [false] or missing
    changes nothing. *)
Theorem fetchData_never_errors (st : Storage) (p : Page) :
  fetchData (Some true) st p
  = (Normal tt, st,
     mkPage (Some (getAllTasks st)) false None (operationLoading p) (notices p)
            (isModalOpen p) (selectedTask p) (form_resets p)) /\
  fetchData (Some false) st p = (Normal tt, st, p) /\
  fetchData None st p = (Normal tt, st, p).
Proof. done. Qed.

(** The page after a handler of the page that called the service, showed
    [n] and fetched [v]. *)
Local Abbreviation refreshed v n p :=
  (mkPage (Some v) false None false (notices p ++ [n])
          (isModalOpen p) (selectedTask p) (form_resets p)).

(** X15.  After [handleDelete] whose write is accepted, the page shows the
    stored array without the elements that had the id, and one notice of
    success. *)
Theorem handleDelete_refreshes
    (id : string) (st : Storage) (p : Page) (l : list value) :
  getAllTasks st = VArr l ->
  Forall (fun t => t <> VNull) l ->
  let kept := List.filter (fun t => negb (has_id id t)) l in
  setItem_accepts (JSON_stringify (VArr kept)) = true ->
  reads_back (VArr kept) ->
  handleDelete id st p
  = (Normal tt, Some (JSON_stringify (VArr kept)),
     refreshed (VArr kept) (message_success "Task deleted successfully!") p) /\
  Forall (fun t => has_id id t = false) kept.
Proof.
  intros Hl Hnn kept Hok Hrb. split; [|apply filter_removed].
  unfold handleDelete, deleteItem.
  rewrite (delete_array JSON_parse JSON_stringify setItem_accepts id st l)
    by done.
  fold kept. rewrite saveTasks_accepted by done.
  unfold refetch, fetchData, getAll.
  destruct Hrb as [Hne Hparse].
  by rewrite (getAllTasks_parsed JSON_parse _ (VArr kept)).
Qed.

(** X16.  After [handleToggleComplete] on a stored task whose write is
    accepted, the page shows the collection with the task at its place,
    with the status that is not the one passed in, and one notice of
    success. *)
Theorem handleToggleComplete_refreshes
    (ts : list Task) (i : nat) (t : Task) (s : TaskStatus)
    (e : Env) (st : Storage) (p : Page) :
  getAllTasks st = tasks_value ts ->
  Forall (fun t' => task_id t' <> task_id t) (take i ts) ->
  ts !! i = Some t ->
  let ts' := <[i := with_status (other_status s) (dayjs_now e) t]> ts in
  setItem_accepts (JSON_stringify (tasks_value ts')) = true ->
  reads_back (tasks_value ts') ->
  handleToggleComplete (task_id t) (status_string s) e st p
  = (Normal tt, Some (JSON_stringify (tasks_value ts')),
     refreshed (tasks_value ts') (message_success "Task updated successfully!") p).
Proof.
  intros Hl Hbefore Hi ts' Hok Hrb.
  unfold handleToggleComplete.
  rewrite (toggle_typed ts i t s) by done. fold ts'.
  rewrite saveTasks_accepted by done.
  unfold refetch, fetchData, getAll.
  destruct Hrb as [Hne Hparse].
  by rewrite (getAllTasks_parsed JSON_parse _ (tasks_value ts')).
Qed.

(** X17.  A task created through the form, on a slot that holds an array
    and with the write accepted: the page shows the array with the new
    task at its end, the modal is closed and the form is reset.  The new
    task is due on the date picked, and at the reading of the clock of
    the form when none was. *)
Theorem form_create_shows_task
    (values : FormValues) (e_form e : Env) (st : Storage) (p : Page)
    (l : list value) :
  getAllTasks st = VArr l ->
  let task := created (formattedValues values e_form) e in
  setItem_accepts (JSON_stringify (VArr (l ++ [task_value task]))) = true ->
  reads_back (VArr (l ++ [task_value task])) ->
  form_handleSubmit values e_form e st (handleCreate p)
  = (Normal tt, Some (JSON_stringify (VArr (l ++ [task_value task]))),
     mkPage (Some (VArr (l ++ [task_value task]))) false None false
            (notices p ++ [message_success "Task created successfully!"])
            false None (S (form_resets p))) /\
  task_dueDate task = default (dayjs_now e_form) (picked_dueDate values) /\
  task_status task = pending.
Proof.
  intros Hl task Hok Hrb. split; [|done].
  unfold form_handleSubmit, modal_handleSubmit, handleSubmit, createItem.
  cbn [handleCreate selectedTask setIsModalOpen setSelectedTask].
  rewrite (create_array JSON_parse JSON_stringify setItem_accepts _ e st l)
    by done.
  fold task. rewrite saveTasks_accepted by done.
  unfold refetch, fetchData, getAll.
  destruct Hrb as [Hne Hparse].
  by rewrite (getAllTasks_parsed JSON_parse _ (VArr (l ++ [task_value task]))).
Qed.

(** X18.  [handleSubmit] of the form never throws.  When the call of the
    service returned ([update] of the selected task, [create] without
    one), the list is fetched again, the modal is closed and the form is
    reset; when it threw, there is the notice of failure and nothing
    else moves: the list is not fetched, the modal stays as it is and
    the form keeps its fields. *)
Theorem form_submit_outcome
    (values : FormValues) (e_form e : Env) (st : Storage) (p : Page) :
  let fv := formattedValues values e_form in
  let service :=
    match selectedTask p with
    | Some task => update (task_id task) (form_props fv) e st
    | None => create fv e st
    end in
  let n :=
    match selectedTask p with
    | Some _ =>
        shown "Task updated successfully!" "Failed to update task" service.1
    | None =>
        shown "Task created successfully!" "Failed to create task" service.1
    end in
  form_handleSubmit values e_form e st p
  = (Normal tt, service.2,
     match service.1 with
     | Normal _ =>
         mkPage (Some (getAllTasks service.2)) false None false
                (notices p ++ [n]) false (selectedTask p) (S (form_resets p))
     | Throw _ => operated n p
     end).
Proof.
  intros fv service n. subst service n.
  unfold form_handleSubmit, form_handleSubmit,
    modal_handleSubmit, handleSubmit,
    createItem, updateItem.
  fold fv. destruct p as [d l er ol ns im [task|] fr]; simpl.
  - by destruct (update (task_id task) (form_props fv) e st) as [[] ?].
  - by destruct (create fv e st) as [[] ?].
Qed.

(** X19.  An edit of a task that is no longer stored, on a slot that is
    absent, unparsable or holds an array without [null] elements, fails
    with [Task not found]: the page shows the notice of failure, and
    neither the slot nor the list on the page changes. *)
Theorem failed_edit_keeps_list
    (task : Task) (values : TaskFormData) (e : Env)
    (st : Storage) (p : Page) (l : list value) :
  selectedTask p = Some task ->
  getAllTasks st = VArr l ->
  Forall (fun t => t <> VNull) l ->
  Forall (fun t => has_id (task_id task) t = false) l ->
  handleSubmit values e st p
  = (Throw TaskNotFound, st, operated (message_error "Failed to update task") p).
Proof.
  intros Hsel Hl Hnn Habsent.
  destruct p as [d lo er ol ns im sel fr]. simpl in Hsel. subst sel.
  unfold handleSubmit, updateItem, update. rewrite Hl. simpl.
  by rewrite array_findIndex_absent by by apply id_is_absent.
Qed.

(** X20.  Saving the edit form with the values the page put into it
    changes nothing of the task but [updatedAt]. *)
Theorem unchanged_edit
    (ts : list Task) (i : nat) (t : Task) (e : Env) (st : Storage) (p : Page) :
  getAllTasks st = tasks_value ts ->
  Forall (fun t' => task_id t' <> task_id t) (take i ts) ->
  ts !! i = Some t ->
  let t' := with_status (task_status t) (dayjs_now e) t in
  (handleSubmit (formatTaskFormData t) e st (handleEdit t p)).1.2
  = saveTasks (tasks_value (<[i := t']> ts)) st.
Proof.
  intros Hl Hbefore Hi t'.
  unfold handleSubmit, handleSubmit, updateItem. simpl.
  rewrite (update_typed JSON_parse JSON_stringify setItem_accepts ts i t
             (form_patch (formatTaskFormData t)))
    by (done || apply patch_of_form).
  done.
Qed.

(** X21.  Where the statistics can be computed, the completed and the
    pending tasks together are no more than all tasks, and the overdue
    tasks no more than the pending ones. *)
Theorem statistics_bounds (d : option value) (now : Z) (s : Statistics) :
  statistics d now = Normal s ->
  (completedTasks s + pendingTasks s <= totalTasks s)%nat /\
  (overdueTasks s <= pendingTasks s)%nat.
Proof.
  unfold statistics, statistics.
  destruct (as_array _) as [l|]; simpl; [|done].
  destruct (array_filter (status_is "completed") l) as [c|] eqn:Hc; simpl; [|done].
  destruct (array_filter (status_is "pending") l) as [q|] eqn:Hq; simpl; [|done].
  destruct (array_filter (overdue_at now) l) eqn:Ho; simpl; [|done].
  intros [= <-]. simpl.
  apply (array_filter_Normal _ (has_status "completed")) in Hc as [_ ->];
    [|apply status_is_Normal].
  apply (array_filter_Normal _ (has_status "pending")) in Hq as [Hnn ->];
    [|apply status_is_Normal].
  apply (array_filter_Normal _
           (fun t => has_status "pending" t
                     && match Date_time (dueDate_of t) with
                        | Some t' => t' <? now
                        | None => false
                        end)) in Ho as [_ ->].
  - split; [apply filter_length_disjoint, has_status_exclusive|].
    apply filter_length_and.
  - intros t b. unfold overdue_at, overdue_at.
    destruct (status_is "pending" t) as [b'|] eqn:Et; simpl; [|done].
    intros [= <-]. by apply status_is_Normal in Et as [? ->].
Qed.

(** X22.  On a collection of tasks the statistics can be computed: all
    tasks are counted, the completed and the pending counts are the
    numbers of tasks that pass the filter of the status column for that
    status, and together they are all tasks. *)
Theorem statistics_of_tasks (ts : list Task) (now : Z) :
  exists s,
    statistics (Some (tasks_value ts)) now = Normal s /\
    totalTasks s = length ts /\
    completedTasks s
    = length (List.filter (status_onFilter "completed") ts) /\
    pendingTasks s
    = length (List.filter (status_onFilter "pending") ts) /\
    (completedTasks s + pendingTasks s = totalTasks s)%nat.
Proof.
  assert (forall s (f : Task -> bool),
            (forall t, has_status s (task_value t) = f t) ->
            array_filter (status_is s) (task_value <$> ts)
            = Normal (task_value <$> List.filter f ts)) as Hfilter.
  { intros s f Hf. induction ts as [|t ts IH]; [done|].
    rewrite fmap_cons. cbn [array_filter List.filter].
    rewrite status_is_has_status, Hf, IH by done. simpl. by destruct (f t). }
  assert (exists o, array_filter (overdue_at now) (task_value <$> ts) = Normal o) as [o Ho].
  { clear Hfilter. induction ts as [|t ts [o IH]]; [by eexists|].
    rewrite fmap_cons. cbn [array_filter]. rewrite IH.
    unfold overdue_at at 1.
    rewrite status_is_has_status by done. simpl. by eexists. }
  eexists. unfold statistics, statistics. simpl.
  rewrite (Hfilter "completed" (status_onFilter "completed"))
    by (intros [? ? ? ? [] ? ? ?]; reflexivity).
  rewrite (Hfilter "pending" (status_onFilter "pending"))
    by (intros [? ? ? ? [] ? ? ?]; reflexivity).
  simpl. rewrite Ho. simpl. split; [done|].
  rewrite !length_fmap. repeat split.
  apply filter_length_cover. unfold status_onFilter. intros t.
  by destruct (task_status t).
Qed.

(** X23.  A task that the table marks as overdue is one that the overdue
    count of the page counts, when both read the same instant from its
    due date and a day ends no earlier than any of its instants. *)
Theorem isOverdue_is_counted (now : Z) (record : value) :
  dayjs_time (dueDate_of record) = Date_time (dueDate_of record) ->
  (forall t, t <= endOf_day t) ->
  isOverdue now record = Normal true ->
  overdue_at now record = Normal true.
Proof.
  intros Hsame Hday. unfold isOverdue, isOverdue,
    overdue_at, overdue_at.
  rewrite Hsame. destruct (Date_time (dueDate_of record)) as [t|]; [|done].
  destruct (endOf_day t <? now) eqn:Hlt; [|done]. intros ->. simpl.
  apply Z.ltb_lt in Hlt. specialize (Hday t).
  assert ((t <? now) = true) as -> by lia. done.
Qed.

End InterfaceProperties.

(** X24.  The sorter of the priority column orders tasks by low, medium,
    high: it is zero exactly on equal priorities, swapping its arguments
    swaps its sign, and it is transitive. *)
Theorem priority_sorter_orders (a b c : Task) :
  (priority_sorter a b = 0 <-> task_priority a = task_priority b) /\
  priority_sorter a b = - priority_sorter b a /\
  (priority_sorter a b <= 0 -> priority_sorter b c <= 0 ->
   priority_sorter a c <= 0) /\
  (priority_sorter a b < 0 <->
   (task_priority a, task_priority b) ∈ [(low, medium); (low, high); (medium, high)]).
Proof.
  unfold priority_sorter.
  destruct (task_priority a), (task_priority b), (task_priority c); simpl;
    repeat split; try lia; try done; intros H;
    rewrite ?elem_of_cons, ?elem_of_nil in *; try lia; intuition congruence.
Qed.

(** X25.  Of the values that the filters of the priority column and of
    the status column offer, a task passes exactly one: the one of its
    own priority, and the one of its own status. *)
Theorem filters_select_own (record : Task) :
  List.filter (fun v => priority_onFilter v record) priority_filters
  = [priority_string (task_priority record)] /\
  List.filter (fun v => status_onFilter v record) status_filters
  = [status_string (task_status record)].
Proof.
  unfold priority_onFilter, status_onFilter.
  by destruct (task_priority record), (task_status record).
Qed.

(** ** The further properties on the reference platform *)

Lemma endOf_day_le t : t <= ReferenceClock.endOf_day t.
Proof.
  unfold ReferenceClock.endOf_day.
  pose proof (Z.div_mod t 86400000). pose proof (Z.mod_pos_bound t 86400000). lia.
Qed.

Section InterfaceOnReference.

Local Abbreviation getAllTasks := (getAllTasks Reference.parse).
Local Abbreviation getAll := (getAll Reference.parse).
Local Abbreviation getById := (getById Reference.parse).
Local Abbreviation create := (create Reference.parse Reference.stringify).
Local Abbreviation update := (update Reference.parse Reference.stringify).
Local Abbreviation delete := (delete Reference.parse Reference.stringify).
Local Abbreviation run := (run Reference.parse Reference.stringify).
Local Abbreviation toggleComplete :=
  (toggleComplete Reference.parse Reference.stringify Sample.roomy).
Local Abbreviation handleSubmit :=
  (handleSubmit Reference.parse Reference.stringify Sample.roomy).
Local Abbreviation handleDelete :=
  (handleDelete Reference.parse Reference.stringify Sample.roomy).
Local Abbreviation handleToggleComplete :=
  (handleToggleComplete Reference.parse Reference.stringify Sample.roomy).
Local Abbreviation form_handleSubmit :=
  (form_handleSubmit Reference.parse Reference.stringify Sample.roomy).
Local Abbreviation statistics := (statistics ReferenceClock.time).
Local Abbreviation isOverdue :=
  (isOverdue ReferenceClock.time ReferenceClock.endOf_day).
Local Abbreviation overdue_at := (overdue_at ReferenceClock.time).
Local Abbreviation both := (Sample.stored [Sample.milk; SampleUi.bread]).

Lemma getById_sound_witness :
  exists l i props,
    getAllTasks both = VArr l /\ l !! i = Some (task_value SampleUi.bread) /\
    task_value SampleUi.bread = VObj props /\
    own_prop "id" props = Some (VStr "def") /\
    Forall (fun t => id_is "def" t = Normal false) (take i l).
Proof.
  apply (getById_sound Reference.parse "def" both both
           (task_value SampleUi.bread)).
  vm_compute. reflexivity.
Defined.

Lemma update_result_fields_witness :
  exists props,
    (update Sample.roomy "abc" Sample.oat_milk_object Sample.env both).1 = Normal (VObj props) /\
    own_prop "updatedAt" props = Some (VStr "2024-06-01T00:00:00.000Z") /\
    own_prop "title" props = Some (VStr "Buy oat milk") /\
    own_prop "dueDate" props = Some (VStr "2024-06-01T00:00:00.000Z").
Proof.
  destruct (update_result_fields Reference.parse Reference.stringify Sample.roomy
              "abc" Sample.oat_milk_object Sample.env both
              (update Sample.roomy "abc" Sample.oat_milk_object Sample.env both).2
              (task_value (patched Sample.milk Sample.oat_milk
                             "2024-06-01T00:00:00.000Z")))
    as (l & i & stored & props & Hl & Hi & _ & Hv & Hat & Hrest);
    [vm_compute; reflexivity|].
  assert (NoDup Sample.oat_milk_object.*1) as Hnodup
    by (apply (bool_decide_unpack _); vm_compute; exact I).
  exists props. split; [by rewrite <- Hv|]. split; [exact Hat|].
  vm_compute in Hl. injection Hl as <-.
  destruct i as [|[|[|i]]]; vm_compute in Hi; try discriminate.
  - injection Hi as <-. by rewrite !(Hrest Hnodup).
  - injection Hv as <-. by vm_compute in Hat.
Defined.

Lemma update_frame_witness :
  exists i l',
    (update Sample.roomy "abc" Sample.oat_milk_object Sample.env both).2
    = saveTasks Reference.stringify Sample.roomy (VArr l') both /\
    Forall (fun t => id_is "abc" t = Normal false)
      (take i [task_value Sample.milk; task_value SampleUi.bread]) /\
    l' !! i = Some (task_value (patched Sample.milk Sample.oat_milk
                                  "2024-06-01T00:00:00.000Z")) /\
    length l' = length [task_value Sample.milk; task_value SampleUi.bread] /\
    forall j, j <> i ->
      l' !! j = [task_value Sample.milk; task_value SampleUi.bread] !! j.
Proof.
  apply (update_frame Reference.parse Reference.stringify Sample.roomy
           "abc" Sample.oat_milk_object Sample.env both);
    vm_compute; reflexivity.
Defined.

Lemma create_then_getById_witness :
  getById (generateId Sample.env) (create Sample.roomy Sample.request Sample.env both).2
  = (Normal (task_value (created Sample.request Sample.env)),
     (create Sample.roomy Sample.request Sample.env both).2).
Proof.
  apply (create_then_getById Reference.parse Reference.stringify Sample.roomy
           Sample.request Sample.env both
           [task_value Sample.milk; task_value SampleUi.bread]).
  - vm_compute. reflexivity.
  - repeat constructor; done.
  - repeat constructor.
  - vm_compute. reflexivity.
  - apply (reads_back_tasks
             [Sample.milk; SampleUi.bread; created Sample.request Sample.env]).
Defined.

Lemma delete_then_gone_witness :
  getAll (Sample.stored [SampleUi.bread])
  = (Normal (tasks_value [SampleUi.bread]), Sample.stored [SampleUi.bread]) /\
  getById "abc" (Sample.stored [SampleUi.bread])
  = (Throw TaskNotFound, Sample.stored [SampleUi.bread]) /\
  update Sample.roomy "abc" (update_props Sample.high_priority) Sample.env
    (Sample.stored [SampleUi.bread])
  = (Throw TaskNotFound, Sample.stored [SampleUi.bread]).
Proof.
  destruct (delete_then_gone Reference.parse Reference.stringify Sample.roomy
              "abc" (update_props Sample.high_priority) Sample.env both
              [task_value Sample.milk; task_value SampleUi.bread])
    as (Hall & _ & Hget & Hupdate).
  - vm_compute. reflexivity.
  - repeat constructor; done.
  - vm_compute. reflexivity.
  - apply (reads_back_tasks [SampleUi.bread]).
  - replace (delete Sample.roomy "abc" both).2 with (Sample.stored [SampleUi.bread])
      in Hall, Hget, Hupdate by (vm_compute; reflexivity).
    by repeat split.
Defined.


Lemma update_then_getById_witness :
  getById "abc" (update Sample.roomy "abc" Sample.oat_milk_object Sample.env both).2
  = (Normal (task_value (patched Sample.milk Sample.oat_milk
                           "2024-06-01T00:00:00.000Z")),
     (update Sample.roomy "abc" Sample.oat_milk_object Sample.env both).2).
Proof.
  apply (update_then_getById Reference.parse Reference.stringify Sample.roomy
           [Sample.milk; SampleUi.bread] 0%nat Sample.milk Sample.oat_milk
           Sample.oat_milk_object Sample.env both).
  - apply patch_of_oat_milk.
  - vm_compute. reflexivity.
  - constructor.
  - reflexivity.
  - vm_compute. reflexivity.
  - apply reads_back_tasks.
Defined.

(** The corrupt slot of the specification, written over. *)
Lemma corrupt_slot_overwritten_witness :
  create Sample.roomy Sample.request Sample.env (Some "not json")
  = (Normal (task_value (created Sample.request Sample.env)),
     Sample.stored [created Sample.request Sample.env]) /\
  delete Sample.roomy "abc" (Some "not json") = (Normal tt, Sample.stored []).
Proof.
  apply (corrupt_slot_overwritten Reference.parse Reference.stringify
           Sample.roomy "not json" "abc" Sample.request Sample.env);
    vm_compute; reflexivity.
Defined.

Lemma refused_writes_are_silent_witness :
  run SampleUi.refusing
    [Create Sample.request Sample.env;
     Update "abc" Sample.high_priority Sample.env;
     Delete "def"] both
  = both /\
  create SampleUi.refusing Sample.request Sample.env both
  = (Normal (task_value (created Sample.request Sample.env)), both).
Proof.
  apply (refused_writes_are_silent Reference.parse Reference.stringify
           SampleUi.refusing _ Sample.request Sample.env both
           [task_value Sample.milk; task_value SampleUi.bread]).
  - reflexivity.
  - vm_compute. reflexivity.
Defined.

Lemma generateId_distinct_witness :
  NoDup (generateId <$> [Sample.env; Sample.env_back; SampleUi.env_later]).
Proof.
  apply (generateId_distinct [Sample.env; Sample.env_back; SampleUi.env_later]).
  - repeat constructor; vm_compute; discriminate.
  - apply (bool_decide_unpack _). vm_compute. exact I.
Defined.

(** The page is stale: it shows [bread] as pending, the slot has it
    completed, and the toggle leaves it completed. *)
Lemma toggle_sets_other_status_witness :
  (toggleComplete "def" "pending" Sample.env both SampleUi.page).1
  = (Normal (task_value (with_status completed "2024-06-01T00:00:00.000Z"
                           SampleUi.bread)),
     Sample.stored [Sample.milk;
                    with_status completed "2024-06-01T00:00:00.000Z"
                      SampleUi.bread]).
Proof.
  etransitivity;
    [apply (toggle_sets_other_status Reference.parse Reference.stringify
              Sample.roomy [Sample.milk; SampleUi.bread] 1%nat SampleUi.bread
              pending Sample.env both SampleUi.page)|].
  - vm_compute. reflexivity.
  - repeat constructor. discriminate.
  - reflexivity.
  - vm_compute. reflexivity.
Defined.

Lemma toggle_twice_restores_witness :
  let '(_, st1, p1) :=
    toggleComplete "abc" "pending" Sample.env both SampleUi.page in
  (toggleComplete "abc" "completed" SampleUi.env_later st1 p1).1
  = (Normal (task_value (with_status pending "2024-06-03T12:00:00.000Z"
                           Sample.milk)),
     Sample.stored [with_status pending "2024-06-03T12:00:00.000Z" Sample.milk;
                    SampleUi.bread]).
Proof.
  refine (toggle_twice_restores Reference.parse Reference.stringify Sample.roomy
            [Sample.milk; SampleUi.bread] 0%nat Sample.milk
            Sample.env SampleUi.env_later both SampleUi.page _ _ _ _ _).
  - vm_compute. reflexivity.
  - constructor.
  - reflexivity.
  - vm_compute. reflexivity.
  - apply reads_back_tasks.
Defined.

Lemma handleDelete_refreshes_witness :
  handleDelete "abc" both SampleUi.page
  = (Normal tt, Sample.stored [SampleUi.bread],
     {| data := Some (tasks_value [SampleUi.bread]);
        loading := false;
        error := None;
        operationLoading := false;
        notices := [message_success "Task deleted successfully!"];
        isModalOpen := false;
        selectedTask := None;
        form_resets := 0 |}).
Proof.
  apply (handleDelete_refreshes Reference.parse Reference.stringify Sample.roomy
           "abc" both SampleUi.page
           [task_value Sample.milk; task_value SampleUi.bread]).
  - vm_compute. reflexivity.
  - repeat constructor; done.
  - vm_compute. reflexivity.
  - apply (reads_back_tasks [SampleUi.bread]).
Defined.

(** The task was deleted while its edit form was open. *)
Lemma failed_edit_keeps_list_witness :
  handleSubmit (formatTaskFormData SampleUi.ghost) Sample.env both
    (handleEdit SampleUi.ghost SampleUi.page)
  = (Throw TaskNotFound, both,
     {| data := None;
        loading := false;
        error := None;
        operationLoading := false;
        notices := [message_error "Failed to update task"];
        isModalOpen := true;
        selectedTask := Some SampleUi.ghost;
        form_resets := 0 |}).
Proof.
  apply (failed_edit_keeps_list Reference.parse Reference.stringify Sample.roomy
           SampleUi.ghost (formatTaskFormData SampleUi.ghost) Sample.env both
           (handleEdit SampleUi.ghost SampleUi.page)
           [task_value Sample.milk; task_value SampleUi.bread]).
  - reflexivity.
  - vm_compute. reflexivity.
  - repeat constructor; done.
  - repeat constructor.
Defined.

Lemma unchanged_edit_witness :
  (handleSubmit (formatTaskFormData SampleUi.bread) SampleUi.env_later both
     (handleEdit SampleUi.bread SampleUi.page)).1.2
  = Sample.stored [Sample.milk;
                   with_status completed "2024-06-03T12:00:00.000Z"
                     SampleUi.bread].
Proof.
  etransitivity;
    [apply (unchanged_edit Reference.parse Reference.stringify Sample.roomy
              [Sample.milk; SampleUi.bread] 1%nat SampleUi.bread
              SampleUi.env_later both SampleUi.page)|].
  - vm_compute. reflexivity.
  - repeat constructor. discriminate.
  - reflexivity.
  - vm_compute. reflexivity.
Defined.

(** On 2024-06-03 at noon: [milk] is pending and overdue, [bread] is
    completed. *)
Lemma statistics_bounds_witness :
  statistics (Some (tasks_value [Sample.milk; SampleUi.bread])) 1717416000000
  = Normal {| totalTasks := 2; completedTasks := 1; pendingTasks := 1;
              overdueTasks := 1 |} /\
  (1 + 1 <= 2)%nat /\ (1 <= 1)%nat.
Proof.
  assert (statistics (Some (tasks_value [Sample.milk; SampleUi.bread]))
            1717416000000
          = Normal {| totalTasks := 2; completedTasks := 1; pendingTasks := 1;
                      overdueTasks := 1 |}) as H
    by (vm_compute; reflexivity).
  split; [exact H|].
  exact (statistics_bounds ReferenceClock.time _ _ _ H).
Defined.

Lemma isOverdue_is_counted_witness :
  isOverdue 1717416000000 (task_value Sample.milk) = Normal true /\
  overdue_at 1717416000000 (task_value Sample.milk) = Normal true.
Proof.
  assert (isOverdue 1717416000000 (task_value Sample.milk) = Normal true) as H
    by (vm_compute; reflexivity).
  split; [exact H|].
  exact (isOverdue_is_counted ReferenceClock.time ReferenceClock.time
           ReferenceClock.endOf_day _ _ eq_refl endOf_day_le H).
Defined.

Lemma handleToggleComplete_refreshes_witness :
  handleToggleComplete "abc" "pending" Sample.env both SampleUi.page
  = (Normal tt,
     Sample.stored [with_status completed "2024-06-01T00:00:00.000Z" Sample.milk;
                    SampleUi.bread],
     {| data :=
          Some (tasks_value
                  [with_status completed "2024-06-01T00:00:00.000Z" Sample.milk;
                   SampleUi.bread]);
        loading := false;
        error := None;
        operationLoading := false;
        notices := [message_success "Task updated successfully!"];
        isModalOpen := false;
        selectedTask := None;
        form_resets := 0 |}).
Proof.
  apply (handleToggleComplete_refreshes Reference.parse Reference.stringify
           Sample.roomy [Sample.milk; SampleUi.bread] 0%nat Sample.milk pending
           Sample.env both SampleUi.page).
  - vm_compute. reflexivity.
  - constructor.
  - reflexivity.
  - vm_compute. reflexivity.
  - apply reads_back_tasks.
Defined.

(** The form is submitted without a date at [Sample.env]; the service
    reads the clock later. *)
Lemma form_create_shows_task_witness :
  (form_handleSubmit SampleUi.undated Sample.env SampleUi.env_later both
     SampleUi.page).2
  = {| data :=
         Some (tasks_value
                 [Sample.milk; SampleUi.bread;
                  created (formattedValues SampleUi.undated Sample.env)
                    SampleUi.env_later]);
       loading := false;
       error := None;
       operationLoading := false;
       notices := [message_success "Task created successfully!"];
       isModalOpen := false;
       selectedTask := None;
       form_resets := 1 |} /\
  task_dueDate (created (formattedValues SampleUi.undated Sample.env)
                  SampleUi.env_later)
  = "2024-06-01T00:00:00.000Z".
Proof.
  destruct (form_create_shows_task Reference.parse Reference.stringify
              Sample.roomy SampleUi.undated Sample.env SampleUi.env_later both
              SampleUi.page [task_value Sample.milk; task_value SampleUi.bread])
    as (Hsubmit & Hdue & _).
  - vm_compute. reflexivity.
  - vm_compute. reflexivity.
  - apply (reads_back_tasks
             [Sample.milk; SampleUi.bread;
              created (formattedValues SampleUi.undated Sample.env)
                SampleUi.env_later]).
  - split; [|exact Hdue].
    etransitivity; [exact (f_equal snd Hsubmit)|]. reflexivity.
Defined.

End InterfaceOnReference.
